(** * PDcracktip: the phase-field crack-tip locator of [PDcracktip.py]

    A shallow embedding of the ParaView filter [PDcracktip] and the
    properties of its scan-and-reduce algorithm.

    Modelling conventions.
    - Python floats are binary64 numbers: Rocq's primitive [float], with its
      IEEE 754 comparisons (false on NaN), subtraction and addition.
      [x ** 2] is the rounded product [x * x], and raises [OverflowError]
      when a finite [x] has no finite square, as CPython does.
    - A default [vtkPoints] stores single-precision coordinates:
      [InsertNextPoint] rounds each coordinate with [to_float32].
    - A Python exception that leaves [ProcessBlock] or [RequestData] is part
      of the outcome, together with the object as the exception found it.
    - VTK data objects live in a heap ([gmap] from object identifiers to
      [DataObject]); the pipeline hands [RequestData] the identifier of the
      input object (if any) and of the output object.
    - [print] is modelled by a list of structured diagnostic records.
    - VTK's [GetValue] performs no bounds check; reading past the end of an
      array is undefined and is modelled by [None] in the option monad. *)

From Stdlib Require Import Floats ZArith QArith Lia.
From stdpp Require Import base option list strings gmap.

Set Warnings "-inexact-float".

(** ** Numbers *)

(** Python's [x <= y] and [x < y] on floats, as propositions. *)
Definition fle (x y : float) : Prop := (x <=? y)%float = true.
Definition flt (x y : float) : Prop := (x <? y)%float = true.

(** Python's chained comparison [lo <= x <= hi]. *)
Definition between (lo x hi : float) : bool :=
  (lo <=? x)%float && (x <=? hi)%float.

Inductive Exception := OverflowError | AttributeError.

(** The value of an expression, or the exception its evaluation raises. *)
Inductive Evaluation (A : Type) : Type :=
| Value (a : A)
| Raises (e : Exception).

Arguments Value {A} a.
Arguments Raises {A} e.

#[global] Instance Evaluation_bind : MBind Evaluation :=
  λ A B f m, match m with Value a => f a | Raises e => Raises e end.

(** [x ** 2] *)
Definition pow2 (x : float) : Evaluation float :=
  let r := (x * x)%float in
  if is_finite x && is_infinity r then Raises OverflowError else Value r.

(** Conversion of a double to the nearest single-precision value (ties to
    even, overflow to infinity), read back as a double. *)
Definition to_float32 (x : float) : float :=
  match Prim2SF x with
  | S754_finite s m e => SF2Prim (binary_round 24 128 s m e)
  | _ => x
  end.

(** ** The VTK data model *)

Module vtk.

(** A coordinate triple, as returned by [GetPoint] or held in a Python
    list of three floats. *)
Definition Point : Type := float * float * float.

Inductive Axis := Ax0 | Ax1 | Ax2.

#[global] Instance Axis_eq_dec : EqDecision Axis.
Proof. solve_decision. Defined.

(** [p[k]] *)
Definition at_axis (p : Point) (k : Axis) : float :=
  match k, p with
  | Ax0, (x, _, _) => x
  | Ax1, (_, y, _) => y
  | Ax2, (_, _, z) => z
  end.

Definition VTK_VERTEX : Z := 1%Z.

(** An array of the point data: a numeric array, with its values in
    storage order, or an array of another kind (strings), which
    [GetArray] does not return. *)
Inductive vtkAbstractArray :=
| vtkDataArray (values : list float)
| vtkStringArray (values : list string).

(** Point data: the arrays in insertion order, each with its name, if it
    has one. *)
Definition vtkPointData : Type := list (option string * vtkAbstractArray).

Record vtkUnstructuredGrid := mkGrid {
  Points : list Point;
  PointData : vtkPointData;
  Cells : list (Z * list nat)
}.

(** A data object: an unstructured grid, a data set of another class (it
    has point data), or an object that is no data set (a composite data
    set, a table), which has no [GetPointData]. *)
Inductive DataObject :=
| UnstructuredGrid (g : vtkUnstructuredGrid)
| OtherDataSet (className : string) (point_data : vtkPointData)
| OtherData (className : string).

Definition GetClassName (o : DataObject) : string :=
  match o with
  | UnstructuredGrid _ => "vtkUnstructuredGrid"
  | OtherDataSet c _ => c
  | OtherData c => c
  end.

Definition GetNumberOfPoints (g : vtkUnstructuredGrid) : nat :=
  length (Points g).

Definition GetPoint (g : vtkUnstructuredGrid) (i : nat) : option Point :=
  Points g !! i.

Definition GetNumberOfArrays (pd : vtkPointData) : nat := length pd.

(** [GetArrayName(i)]: [None] out of range, [Some None] for an array
    without a name. *)
Definition GetArrayName (pd : vtkPointData) (i : nat)
    : option (option string) :=
  fst <$> pd !! i.

(** [GetAbstractArray(name)]: the first array of that name. *)
Fixpoint GetAbstractArray (pd : vtkPointData) (name : string)
    : option vtkAbstractArray :=
  match pd with
  | [] => None
  | (Some n, a) :: rest =>
      if String.eqb n name then Some a else GetAbstractArray rest name
  | (None, _) :: rest => GetAbstractArray rest name
  end.

(** [GetArray(name)]: the first array of that name, if it is numeric. *)
Definition GetArray (pd : vtkPointData) (name : string)
    : option (list float) :=
  match GetAbstractArray pd name with
  | Some (vtkDataArray values) => Some values
  | _ => None
  end.

Definition GetValue (a : list float) (i : nat) : option float := a !! i.

(** What a default [vtkPoints] keeps of a point given to
    [InsertNextPoint]. *)
Definition stored (p : Point) : Point :=
  match p with
  | (x, y, z) => (to_float32 x, to_float32 y, to_float32 z)
  end.

(** The grid built at the end of [RequestData]: one point and one vertex
    cell whose single id is 0. *)
Definition single_vertex (p : Point) : vtkUnstructuredGrid :=
  {| Points := [stored p]; PointData := []; Cells := [(VTK_VERTEX, [0%nat])] |}.

End vtk.
Import vtk.

Notation "p .[ k ]" := (at_axis p k) (at level 1, format "p .[ k ]").

(** ** Diagnostics *)

Inductive Diagnostic :=
| MsgRequestData (d_c : float) (array_name : string)
| MsgProcessingBlock (className : string)
| MsgNumberOfArrays (n : nat)
| MsgArrayNotFound (array_name className : string)
| MsgFoundArray (array_name className : string)
| MsgUnsupportedInput.

(** ** The filter object *)

Record PDcracktip := mkFilter {
  _d_c : float;
  _array_name : string;
  _initial_tip : Point;
  _global_current_tip : Point;
  _global_max_distance_sq : float;
  _region_min : Point;
  _region_max : Point
}.

(** [__init__], with the host's [VTK_FLOAT_MAX] as a parameter. *)
Definition init (VTK_FLOAT_MAX : float) : PDcracktip :=
  {| _d_c := 0.5%float;
     _array_name := "d";
     _initial_tip := (0, 0, 0)%float;
     _global_current_tip := (0, 0, 0)%float;
     _global_max_distance_sq := (-1)%float;
     _region_min := (- VTK_FLOAT_MAX, - VTK_FLOAT_MAX, - VTK_FLOAT_MAX)%float;
     _region_max := (VTK_FLOAT_MAX, VTK_FLOAT_MAX, VTK_FLOAT_MAX) |}.

(** The property setters ([Modified] and the trace they print are left
    out). *)
Definition SetCriticalPhaseFieldValue (self : PDcracktip) (value : float)
    : PDcracktip :=
  {| _d_c := value;
     _array_name := _array_name self;
     _initial_tip := _initial_tip self;
     _global_current_tip := _global_current_tip self;
     _global_max_distance_sq := _global_max_distance_sq self;
     _region_min := _region_min self;
     _region_max := _region_max self |}.

Definition SetInitialTipLocation (self : PDcracktip) (x y z : float)
    : PDcracktip :=
  {| _d_c := _d_c self;
     _array_name := _array_name self;
     _initial_tip := (x, y, z);
     _global_current_tip := _global_current_tip self;
     _global_max_distance_sq := _global_max_distance_sq self;
     _region_min := _region_min self;
     _region_max := _region_max self |}.

Definition SetRegionMin (self : PDcracktip) (x y z : float) : PDcracktip :=
  {| _d_c := _d_c self;
     _array_name := _array_name self;
     _initial_tip := _initial_tip self;
     _global_current_tip := _global_current_tip self;
     _global_max_distance_sq := _global_max_distance_sq self;
     _region_min := (x, y, z);
     _region_max := _region_max self |}.

Definition SetRegionMax (self : PDcracktip) (x y z : float) : PDcracktip :=
  {| _d_c := _d_c self;
     _array_name := _array_name self;
     _initial_tip := _initial_tip self;
     _global_current_tip := _global_current_tip self;
     _global_max_distance_sq := _global_max_distance_sq self;
     _region_min := _region_min self;
     _region_max := (x, y, z) |}.

(** [SetArrayName] ignores the empty name and the name ["None"]. *)
Definition SetArrayName (self : PDcracktip) (array_name : string)
    : PDcracktip :=
  if negb (String.eqb array_name "") && negb (String.eqb array_name "None")
  then {| _d_c := _d_c self;
          _array_name := array_name;
          _initial_tip := _initial_tip self;
          _global_current_tip := _global_current_tip self;
          _global_max_distance_sq := _global_max_distance_sq self;
          _region_min := _region_min self;
          _region_max := _region_max self |}
  else self.

Definition set_accumulator (self : PDcracktip) (d : float) (p : Point)
    : PDcracktip :=
  {| _d_c := _d_c self;
     _array_name := _array_name self;
     _initial_tip := _initial_tip self;
     _global_current_tip := p;
     _global_max_distance_sq := d;
     _region_min := _region_min self;
     _region_max := _region_max self |}.

(** The configuration part of the object: everything but the two
    [_global_*] fields. *)
Definition config (self : PDcracktip)
    : float * string * Point * Point * Point :=
  (_d_c self, _array_name self, _initial_tip self, _region_min self,
   _region_max self).

(** ** ProcessBlock *)

Definition in_region (self : PDcracktip) (point : Point) : bool :=
  between (_region_min self).[Ax0] point.[Ax0] (_region_max self).[Ax0] &&
  between (_region_min self).[Ax1] point.[Ax1] (_region_max self).[Ax1] &&
  between (_region_min self).[Ax2] point.[Ax2] (_region_max self).[Ax2].

(** The condition of the [if] at lines 98-101.  [and] short-circuits, so
    the array is read only for a point inside the region. *)
Definition loop_condition (self : PDcracktip) (phase_field_array : list float)
    (i : nat) (point : Point) : option bool :=
  if in_region self point
  then v ← GetValue phase_field_array i; Some (_d_c self <? v)%float
  else Some false.

(** Lines 102-106. *)
Definition distance_sq (point tip : Point) : Evaluation float :=
  a ← pow2 (point.[Ax0] - tip.[Ax0])%float;
  b ← pow2 (point.[Ax1] - tip.[Ax1])%float;
  c ← pow2 (point.[Ax2] - tip.[Ax2])%float;
  Value (a + b + c)%float.

(** How a piece of the scan ends: it goes on with the object, or an
    exception leaves it, with the object as it is then. *)
Inductive Flow :=
| Continue (self : PDcracktip)
| Abort (e : Exception) (self : PDcracktip).

(** One iteration of the loop at lines 96-109. *)
Definition loop_body (block : vtkUnstructuredGrid)
    (phase_field_array : list float) (self : PDcracktip) (i : nat)
    : option Flow :=
  point ← GetPoint block i;
  c ← loop_condition self phase_field_array i point;
  if (c : bool) then
    match distance_sq point (_initial_tip self) with
    | Raises e => Some (Abort e self)
    | Value d =>
        if (_global_max_distance_sq self <? d)%float
        then Some (Continue (set_accumulator self d point))
        else Some (Continue self)
    end
  else Some (Continue self).

(** [for i in idxs: body] *)
Fixpoint for_each (body : PDcracktip → nat → option Flow)
    (idxs : list nat) (self : PDcracktip) : option Flow :=
  match idxs with
  | [] => Some (Continue self)
  | i :: rest =>
      match body self i with
      | Some (Continue self') => for_each body rest self'
      | stopped => stopped
      end
  end.

(** The first [k] iterations of the scan. *)
Definition scan (block : vtkUnstructuredGrid) (phase_field_array : list float)
    (k : nat) (self : PDcracktip) : option Flow :=
  for_each (loop_body block phase_field_array) (seq 0 k) self.

(** [ProcessBlock(block)]; [block] is [None] when there is no object.
    Returns how the call ends and what it printed. *)
Definition ProcessBlock (self : PDcracktip) (block : option DataObject)
    : option (Flow * list Diagnostic) :=
  match block with
  | Some (UnstructuredGrid g) =>
      let className := GetClassName (UnstructuredGrid g) in
      let point_data := PointData g in
      let log := [MsgProcessingBlock className;
                  MsgNumberOfArrays (GetNumberOfArrays point_data)] in
      match GetArray point_data (_array_name self) with
      | None =>
          Some (Continue self,
                log ++ [MsgArrayNotFound (_array_name self) className])
      | Some phase_field_array =>
          flow ← scan g phase_field_array (GetNumberOfPoints g) self;
          Some (flow, log ++ [MsgFoundArray (_array_name self) className])
      end
  | _ => Some (Continue self, [])
  end.

(** ** RequestData *)

Abbreviation Heap := (gmap positive DataObject).

(** How a call of [RequestData] ends. *)
Inductive Exit :=
| Return (code : Z)
| Propagate (e : Exception).

Record Outcome := mkOutcome {
  returned : Exit;
  filter : PDcracktip;
  heap : Heap;
  printed : list Diagnostic
}.

(** Lines 117-118. *)
Definition reset (self : PDcracktip) : PDcracktip :=
  set_accumulator self (-1)%float (_initial_tip self).

(** [RequestData]: [inInfo] names the input data object (if one is
    connected), [outInfo] the output data object. *)
Definition RequestData (self : PDcracktip) (inInfo : option positive)
    (outInfo : positive) (h : Heap) : option Outcome :=
  let log0 := [MsgRequestData (_d_c self) (_array_name self)] in
  let input_data := i ← inInfo; h !! i in
  let self := reset self in
  match input_data with
  | Some (UnstructuredGrid g) =>
      '(flow, log1) ← ProcessBlock self input_data;
      match flow with
      | Abort e self =>
          Some {| returned := Propagate e;
                  filter := self;
                  heap := h;
                  printed := log0 ++ log1 |}
      | Continue self =>
          let output_block := single_vertex (_global_current_tip self) in
          Some {| returned := Return 1;
                  filter := self;
                  heap := <[outInfo := UnstructuredGrid output_block]> h;
                  printed := log0 ++ log1 |}
      end
  | _ =>
      Some {| returned := Return 0;
              filter := self;
              heap := h;
              printed := log0 ++ [MsgUnsupportedInput] |}
  end.

(** ** GetArrayList and the host's calls *)

(** The loop of [GetArrayList]:
    [array_names.add(point_data.GetArrayName(i))] for each index. *)
Fixpoint add_array_names (point_data : vtkPointData) (idxs : list nat)
    (array_names : gset (option string)) : option (gset (option string)) :=
  match idxs with
  | [] => Some array_names
  | i :: rest =>
      n ← GetArrayName point_data i;
      add_array_names point_data rest ({[n]} ∪ array_names)
  end.

(** [GetPointData()], which only data sets have. *)
Definition GetPointData (o : DataObject) : Evaluation vtkPointData :=
  match o with
  | UnstructuredGrid g => Value (PointData g)
  | OtherDataSet _ point_data => Value point_data
  | OtherData _ => Raises AttributeError
  end.

(** [GetArrayList]: the names of the input's point-data arrays ([None]
    for an array without a name), as a list made from a set, so in no
    particular order. *)
Definition GetArrayList (inInfo : option positive) (h : Heap)
    : option (Evaluation (list (option string))) :=
  match i ← inInfo; h !! i with
  | None => Some (Value (elements (∅ : gset (option string))))
  | Some input_data =>
      match GetPointData input_data with
      | Raises e => Some (Raises e)
      | Value point_data =>
          array_names ← add_array_names point_data
                          (seq 0 (GetNumberOfArrays point_data)) ∅;
          Some (Value (elements array_names))
      end
  end.

(** A call of one of the property setters by the host. *)
Inductive Call :=
| CallSetCriticalPhaseFieldValue (value : float)
| CallSetInitialTipLocation (x y z : float)
| CallSetRegionMin (x y z : float)
| CallSetRegionMax (x y z : float)
| CallSetArrayName (array_name : string).

Definition call (self : PDcracktip) (c : Call) : PDcracktip :=
  match c with
  | CallSetCriticalPhaseFieldValue value =>
      SetCriticalPhaseFieldValue self value
  | CallSetInitialTipLocation x y z => SetInitialTipLocation self x y z
  | CallSetRegionMin x y z => SetRegionMin self x y z
  | CallSetRegionMax x y z => SetRegionMax self x y z
  | CallSetArrayName array_name => SetArrayName self array_name
  end.

(** The object after a sequence of setter calls. *)
Definition configure (self : PDcracktip) (calls : list Call) : PDcracktip :=
  foldl call self calls.

(** ** The specification's vocabulary *)

(** The qualifying predicate, in the words of the specification: inside the
    inclusive region on all three axes, and strictly above the threshold. *)
Definition Qualifies (self : PDcracktip) (p : Point) (v : float) : Prop :=
  (∀ k : Axis, fle (_region_min self).[k] p.[k] ∧
               fle p.[k] (_region_max self).[k]) ∧
  flt (_d_c self) v.

(** Index [i] of the grid holds point [p], the requested field has a value
    there, and the pair qualifies. *)
Definition candidate (self : PDcracktip) (g : vtkUnstructuredGrid)
    (i : nat) (p : Point) : Prop :=
  GetPoint g i = Some p ∧
  ∃ a v, GetArray (PointData g) (_array_name self) = Some a ∧
         GetValue a i = Some v ∧ Qualifies self p v.

(** Every point has a value in the requested array, when that array exists
    (VTK keeps one tuple per point in point-data arrays). *)
Definition readable (self : PDcracktip) (g : vtkUnstructuredGrid) : Prop :=
  ∀ a, GetArray (PointData g) (_array_name self) = Some a →
       GetNumberOfPoints g ≤ length a.

(** Some axis on which the region is empty. *)
Definition degenerate (self : PDcracktip) : Prop :=
  ∃ k : Axis, flt (_region_max self).[k] (_region_min self).[k].

(** The accumulator fields of the object. *)
Definition accumulator (self : PDcracktip) : Point * float :=
  (_global_current_tip self, _global_max_distance_sq self).

(** The object a piece of the scan leaves. *)
Definition object_of (flow : Flow) : PDcracktip :=
  match flow with
  | Continue self => self
  | Abort _ self => self
  end.

(** The square of the coordinate difference on one axis, in binary64; it
    has no value when the difference is finite and its square is not. *)
Definition squared_difference (p r : Point) (k : Axis) : option float :=
  let d := (p.[k] - r.[k])%float in
  if is_finite d && is_infinity (d * d)%float then None
  else Some (d * d)%float.

(** The squared Euclidean distance of the specification as binary64
    computes it: the three squared differences, added in axis order. *)
Definition squared_distance (p r : Point) : option float :=
  x ← squared_difference p r Ax0;
  y ← squared_difference p r Ax1;
  z ← squared_difference p r Ax2;
  Some (x + y + z)%float.

(** The number a finite float stands for. *)
Definition exact (x : float) : option Q :=
  match Prim2SF x with
  | S754_zero _ => Some 0%Q
  | S754_finite s m e =>
      Some ((if s then -1 else 1) * inject_Z (Zpos m) * 2 ^ e)%Q
  | _ => None
  end.


(** [candidate], relative to the array [a] being scanned. *)
Definition cand (self : PDcracktip) (g : vtkUnstructuredGrid) (a : list float)
    (i : nat) (p : Point) : Prop :=
  GetPoint g i = Some p ∧ ∃ v, GetValue a i = Some v ∧ Qualifies self p v.

(** What the accumulator holds after the first [k] points when the scan
    starts from the tip [p0] and the running maximum [d0] and no square
    overflows: either no qualifying point was above [d0], or it holds the
    first of the farthest qualifying points, which is above [d0].  Distances
    are compared as the code compares them, so a distance that is NaN is
    above nothing and nothing is above it. *)
Inductive accumulated (self : PDcracktip) (g : vtkUnstructuredGrid)
    (a : list float) (p0 : Point) (d0 : float) (k : nat)
  : Point → float → Prop :=
| accumulated_kept :
    (∀ j q y, j < k → cand self g a j q →
              squared_distance q (_initial_tip self) = Some y →
              ¬ flt d0 y) →
    accumulated self g a p0 d0 k p0 d0
| accumulated_taken i p x :
    i < k → cand self g a i p →
    squared_distance p (_initial_tip self) = Some x →
    flt d0 x →
    (∀ j q y, j < k → cand self g a j q →
              squared_distance q (_initial_tip self) = Some y →
              ¬ flt x y) →
    (∀ j q y, j < i → cand self g a j q →
              squared_distance q (_initial_tip self) = Some y →
              ¬ fle x y) →
    accumulated self g a p0 d0 k p x.

(** What the located tip and the final running maximum are, for a grid on
    which no square overflows: the reference point and the sentinel when no
    qualifying point has a distance that is a number, otherwise the first
    of the qualifying points of largest computed distance. *)
Inductive located (self : PDcracktip) (g : vtkUnstructuredGrid)
  : Point → float → Prop :=
| located_none :
    (∀ j q y, candidate self g j q →
              squared_distance q (_initial_tip self) = Some y →
              is_nan y = true) →
    located self g (_initial_tip self) (-1)%float
| located_some i p x :
    candidate self g i p →
    squared_distance p (_initial_tip self) = Some x →
    is_nan x = false →
    (∀ j q y, candidate self g j q →
              squared_distance q (_initial_tip self) = Some y →
              ¬ flt x y) →
    (∀ j q y, j < i → candidate self g j q →
              squared_distance q (_initial_tip self) = Some y →
              ¬ fle x y) →
    located self g p x.

(** No square overflows on a qualifying point of the grid. *)
Definition no_overflow (self : PDcracktip) (g : vtkUnstructuredGrid) : Prop :=
  ∀ j q, candidate self g j q →
         is_Some (squared_distance q (_initial_tip self)).

(** The diagnostics of a run on an unstructured grid. *)
Definition grid_diagnostics (self : PDcracktip) (g : vtkUnstructuredGrid)
    : list Diagnostic :=
  [MsgRequestData (_d_c self) (_array_name self);
   MsgProcessingBlock "vtkUnstructuredGrid";
   MsgNumberOfArrays (GetNumberOfArrays (PointData g));
   match GetArray (PointData g) (_array_name self) with
   | Some _ => MsgFoundArray (_array_name self) "vtkUnstructuredGrid"
   | None => MsgArrayNotFound (_array_name self) "vtkUnstructuredGrid"
   end].

(** The output grid with the single point [p] and the single vertex cell
    on it. *)
Definition one_vertex_grid (p : Point) : vtkUnstructuredGrid :=
  {| Points := [p]; PointData := []; Cells := [(1%Z, [0])] |}.

(** ** The order of binary64, for the proofs *)

(** A key that orders the floats that are numbers as [SFcompare] does:
    sign class, then exponent, then mantissa. *)
Definition key (x : spec_float) : option (Z * Z * Z) :=
  match x with
  | S754_nan => None
  | S754_zero _ => Some (0, 0, 0)%Z
  | S754_infinity false => Some (2, 0, 0)%Z
  | S754_infinity true => Some (-2, 0, 0)%Z
  | S754_finite false m e => Some (1, e, Zpos m)%Z
  | S754_finite true m e => Some (-1, - e, Zneg m)%Z
  end.

Definition lexcmp (a b : Z * Z * Z) : comparison :=
  match a, b with
  | (a1, a2, a3), (b1, b2, b3) =>
      match (a1 ?= b1)%Z with
      | Eq => match (a2 ?= b2)%Z with Eq => (a3 ?= b3)%Z | r => r end
      | r => r
      end
  end.

Definition keycmp (a b : option (Z * Z * Z)) : option comparison :=
  match a, b with
  | Some a, Some b => Some (lexcmp a b)
  | _, _ => None
  end.

Definition fkey (x : float) : option (Z * Z * Z) := key (Prim2SF x).

(** The sign of a spec float is [+], or it is NaN. *)
Definition unsigned (x : spec_float) : Prop :=
  match x with
  | S754_nan => True
  | S754_zero s | S754_infinity s | S754_finite s _ _ => s = false
  end.

(** ** Outcomes of the scan *)

(** A point as a default [vtkPoints] holds it: each coordinate in single
    precision. *)
Definition single_precision (p : Point) : Point :=
  (to_float32 p.[Ax0], to_float32 p.[Ax1], to_float32 p.[Ax2]).

(** How the first [k] iterations end when they start from the tip [p0] and
    the running maximum [d0]: they complete, no square having overflowed, or
    the square of a qualifying point overflows and the exception leaves the
    object as the points before that one made it. *)
Inductive scan_result (self : PDcracktip) (g : vtkUnstructuredGrid)
    (a : list float) (p0 : Point) (d0 : float) (k : nat) : Flow → Prop :=
| scan_completed p d :
    accumulated self g a p0 d0 k p d →
    (∀ j q, j < k → cand self g a j q →
            is_Some (squared_distance q (_initial_tip self))) →
    scan_result self g a p0 d0 k (Continue (set_accumulator self d p))
| scan_overflowed i q p d :
    i < k → cand self g a i q →
    squared_distance q (_initial_tip self) = None →
    accumulated self g a p0 d0 i p d →
    (∀ j q', j < i → cand self g a j q' →
             is_Some (squared_distance q' (_initial_tip self))) →
    scan_result self g a p0 d0 k
      (Abort OverflowError (set_accumulator self d p)).

(** ** The claims that fail, as they are stated *)


(** "When no point qualifies the locator returns exactly the reference
    point." *)
Definition returns_exactly_the_reference : Prop :=
  ∀ self inp out h g o,
    h !! inp = Some (UnstructuredGrid g) →
    (∀ j q, ¬ candidate self g j q) →
    RequestData self (Some inp) out h = Some o →
    ∃ u, heap o !! out = Some (UnstructuredGrid u) ∧
         Points u = [_initial_tip self].



(** "When the field is absent the operation returns the reference point
    unchanged." *)
Definition absent_field_returns_the_reference_unchanged : Prop :=
  ∀ self inp out h g o,
    h !! inp = Some (UnstructuredGrid g) →
    GetArray (PointData g) (_array_name self) = None →
    RequestData self (Some inp) out h = Some o →
    ∃ u, heap o !! out = Some (UnstructuredGrid u) ∧
         Points u = [_initial_tip self].

(** "Whenever the input is an unstructured grid the output contains
    exactly one point, the located tip, and one vertex cell." *)
Definition grid_input_gives_the_tip_as_one_vertex : Prop :=
  ∀ self inp out h g,
    h !! inp = Some (UnstructuredGrid g) →
    readable self g →
    ∃ o u, RequestData self (Some inp) out h = Some o ∧
           heap o !! out = Some (UnstructuredGrid u) ∧
           Points u = [_global_current_tip (filter o)] ∧
           Cells u = [(VTK_VERTEX, [0])].

(** The reading of "the accumulator is scoped to one invocation and is not
    a field shared between invocations": an invocation hands the object
    back with the accumulator fields it found, and [ProcessBlock] computes
    the same tip on objects of equal configuration. *)
Definition accumulator_left_untouched : Prop :=
  ∀ self inInfo out h o,
    RequestData self inInfo out h = Some o →
    accumulator (filter o) = accumulator self.

Definition ProcessBlock_ignores_accumulator : Prop :=
  ∀ self1 self2 block r1 r2,
    config self1 = config self2 →
    ProcessBlock self1 block = Some r1 →
    ProcessBlock self2 block = Some r2 →
    _global_current_tip (object_of r1.1) =
    _global_current_tip (object_of r2.1).

(** ** Sample data *)

Module Sample.

(** [vtk.VTK_FLOAT_MAX], the single-precision value of [1.0e+38]. *)
Definition VTK_FLOAT_MAX : float := 0x1.2ced32p+126%float.

Definition fresh : PDcracktip := init VTK_FLOAT_MAX.

Definition damage (values : list float) : vtkPointData :=
  [(Some "d", vtkDataArray values)].

(** Three points on the x axis; the last one is undamaged. *)
Definition bar : vtkUnstructuredGrid :=
  {| Points := [(0, 0, 0); (1, 0, 0); (2, 0, 0)]%float;
     PointData := damage [0.9; 0.9; 0.1]%float;
     Cells := [(VTK_VERTEX, [0]); (VTK_VERTEX, [1]); (VTK_VERTEX, [2])] |}.

(** The same points, all damaged. *)
Definition broken_bar : vtkUnstructuredGrid :=
  {| Points := [(0, 0, 0); (1, 0, 0); (2, 0, 0)]%float;
     PointData := damage [0.9; 0.9; 0.9]%float;
     Cells := [] |}.

(** Three damaged points at distance 1 from the origin. *)
Definition ring : vtkUnstructuredGrid :=
  {| Points := [(1, 0, 0); (-1, 0, 0); (0, 1, 0)]%float;
     PointData := damage [0.9; 0.9; 0.9]%float;
     Cells := [] |}.

(** An undamaged point followed by a damaged one at the origin. *)
Definition origin_second : vtkUnstructuredGrid :=
  {| Points := [(5, 0, 0); (0, 0, 0)]%float;
     PointData := damage [0.1; 0.9]%float;
     Cells := [] |}.

(** A grid that carries a temperature and labels but no damage field. *)
Definition undamaged : vtkUnstructuredGrid :=
  {| Points := [(0, 0, 0); (1, 0, 0)]%float;
     PointData := [(Some "T", vtkDataArray [300; 301]%float);
                   (Some "label", vtkStringArray ["a"; "b"])];
     Cells := [] |}.

Definition empty_grid : vtkUnstructuredGrid :=
  {| Points := []; PointData := damage []; Cells := [] |}.

(** Two damaged points far on the x axis, 0.5 apart in y: their squared
    distances from the origin are 1e16 and 1e16 + 0.25, which binary64
    both rounds to 1e16. *)
Definition far_pair : vtkUnstructuredGrid :=
  {| Points := [(1e8, 0, 0); (1e8, 0.5, 0)]%float;
     PointData := damage [0.9; 0.9]%float;
     Cells := [] |}.

(** Two damaged points with the same coordinates in another order: they
    are at the same distance from the origin, and binary64 computes 1 for
    the first and the next float above 1 for the second. *)
Definition mirrored_pair : vtkUnstructuredGrid :=
  {| Points := [(1, 0x1.4p-27, 0x1.4p-27); (0x1.4p-27, 0x1.4p-27, 1)]%float;
     PointData := damage [0.9; 0.9]%float;
     Cells := [] |}.

(** One damaged point at the origin. *)
Definition origin_only : vtkUnstructuredGrid :=
  {| Points := [(0, 0, 0)]%float;
     PointData := damage [0.9]%float;
     Cells := [] |}.

(** The points of [bar] followed by those of [ring]. *)
Definition bar_then_ring : vtkUnstructuredGrid :=
  {| Points := Points bar ++ Points ring;
     PointData := damage ([0.9; 0.9; 0.1] ++ [0.9; 0.9; 0.9])%float;
     Cells := [] |}.

(** The points of [bar] with their values, last to first. *)
Definition bar_reversed : vtkUnstructuredGrid :=
  {| Points := [(2, 0, 0); (1, 0, 0); (0, 0, 0)]%float;
     PointData := damage [0.1; 0.9; 0.9]%float;
     Cells := [] |}.

(** The point data of a surface: two arrays of one name, an array without
    a name and an array of strings. *)
Definition surface_data : vtkPointData :=
  [(Some "d", vtkDataArray [0.9]%float);
   (Some "d", vtkDataArray [0.1]%float);
   (None, vtkDataArray [1]%float);
   (Some "part", vtkStringArray ["skin"])].

(** One damaged point whose x coordinate is no single-precision value. *)
Definition fine_point : vtkUnstructuredGrid :=
  {| Points := [(0.1, 0, 0)]%float;
     PointData := damage [0.9]%float;
     Cells := [] |}.

(** Objects 1 to 8 and 10 to 14 are possible inputs, object 9 is the
    output. *)
Definition objects : gmap positive DataObject :=
  <[1%positive := UnstructuredGrid bar]>
  (<[2%positive := UnstructuredGrid broken_bar]>
  (<[3%positive := UnstructuredGrid ring]>
  (<[4%positive := UnstructuredGrid origin_second]>
  (<[5%positive := UnstructuredGrid undamaged]>
  (<[6%positive := OtherData "vtkMultiBlockDataSet"]>
  (<[7%positive := OtherDataSet "vtkPolyData" surface_data]>
  (<[8%positive := UnstructuredGrid empty_grid]>
  (<[9%positive := UnstructuredGrid empty_grid]>
  (<[10%positive := UnstructuredGrid far_pair]>
  (<[11%positive := UnstructuredGrid mirrored_pair]>
  (<[12%positive := UnstructuredGrid origin_only]>
  (<[13%positive := UnstructuredGrid bar_reversed]>
  (<[14%positive := UnstructuredGrid fine_point]> ∅))))))))))))).

(** A region that is empty on the x axis. *)
Definition inverted : PDcracktip :=
  SetRegionMax (SetRegionMin fresh 1 0 0) 0 1 1.

(** The region of the second example: [x] between -1 and 0.5. *)
Definition narrow : PDcracktip :=
  SetRegionMax
    (SetRegionMin fresh (-1) (- VTK_FLOAT_MAX) (- VTK_FLOAT_MAX))
    0.5 VTK_FLOAT_MAX VTK_FLOAT_MAX.

(** The object as an invocation on [bar] leaves it. *)
Definition used : PDcracktip :=
  set_accumulator fresh 1 (1, 0, 0)%float.

(** A reference point that is no single-precision value. *)
Definition tenth : PDcracktip := SetInitialTipLocation fresh 0.1 0 0.

(** A reference point so far that the square of its distance to the origin
    is no float. *)
Definition remote : PDcracktip := SetInitialTipLocation fresh 1e200 0 0.

End Sample.

(** ** Tactics for the sample data *)

(** Closes a comparison of float literals. *)
Ltac fcompare := vm_compute; first [reflexivity | discriminate].

(** A hypothesis [GetArray ... = Some a] on a sample grid names [a]. *)
Ltac sample_array H := vm_compute in H; injection H as <-.

Ltac sample_readable :=
  let a := fresh "a" in let H := fresh "H" in
  intros a H; sample_array H; vm_compute; lia.






(** * Properties *)

(** ** Comparisons of binary64 *)

Lemma SFcompare_key x y : SFcompare x y = keycmp (key x) (key y).
Proof.
  destruct x as [[|]|[|]| |[|] m1 e1], y as [[|]|[|]| |[|] m2 e2];
    try reflexivity; simpl.
  rewrite Z.compare_opp, (Z.compare_antisym e1 e2).
  destruct (e1 ?= e2)%Z; reflexivity.
Qed.

Lemma lexcmp_refl a : lexcmp a a = Eq.
Proof. destruct a as [[a1 a2] a3]. simpl. by rewrite !Z.compare_refl. Qed.

Lemma lexcmp_eq a b : lexcmp a b = Eq → a = b.
Proof.
  destruct a as [[a1 a2] a3], b as [[b1 b2] b3]. simpl.
  destruct (Z.compare_spec a1 b1); try done.
  destruct (Z.compare_spec a2 b2); try done.
  destruct (Z.compare_spec a3 b3); try done. by subst.
Qed.

Lemma lexcmp_antisym a b : lexcmp b a = CompOpp (lexcmp a b).
Proof.
  destruct a as [[a1 a2] a3], b as [[b1 b2] b3]. simpl.
  rewrite (Z.compare_antisym a1 b1), (Z.compare_antisym a2 b2),
    (Z.compare_antisym a3 b3).
  destruct (a1 ?= b1)%Z; simpl; try done.
  destruct (a2 ?= b2)%Z; simpl; done.
Qed.

Lemma lexcmp_lt_trans a b c :
  lexcmp a b = Lt → lexcmp b c = Lt → lexcmp a c = Lt.
Proof.
  destruct a as [[a1 a2] a3], b as [[b1 b2] b3], c as [[c1 c2] c3]. simpl.
  destruct (Z.compare_spec a1 b1), (Z.compare_spec b1 c1),
    (Z.compare_spec a1 c1); try done; try lia;
  destruct (Z.compare_spec a2 b2), (Z.compare_spec b2 c2),
    (Z.compare_spec a2 c2); try done; try lia;
  destruct (Z.compare_spec a3 b3), (Z.compare_spec b3 c3),
    (Z.compare_spec a3 c3); try done; lia.
Qed.

Lemma ltb_key x y :
  (x <? y)%float =
  match keycmp (fkey x) (fkey y) with Some Lt => true | _ => false end.
Proof. rewrite FloatAxioms.ltb_spec. unfold SFltb. by rewrite SFcompare_key. Qed.

Lemma leb_key x y :
  (x <=? y)%float =
  match keycmp (fkey x) (fkey y) with
  | Some (Lt | Eq) => true
  | _ => false
  end.
Proof. rewrite FloatAxioms.leb_spec. unfold SFleb. by rewrite SFcompare_key. Qed.

Lemma eqb_key x y :
  (x =? y)%float =
  match keycmp (fkey x) (fkey y) with Some Eq => true | _ => false end.
Proof. rewrite FloatAxioms.eqb_spec. unfold SFeqb. by rewrite SFcompare_key. Qed.

Lemma is_nan_key x : is_nan x = true ↔ fkey x = None.
Proof.
  unfold is_nan. rewrite eqb_key.
  destruct (fkey x) as [a|]; simpl; [|done].
  rewrite lexcmp_refl. done.
Qed.

Lemma not_nan_key x : is_nan x = false ↔ is_Some (fkey x).
Proof.
  destruct (is_nan x) eqn:E.
  - apply is_nan_key in E. rewrite E. split; [done | by intros [? ?]].
  - split; [intros _ | done].
    destruct (fkey x) eqn:K; [done|].
    apply is_nan_key in K. congruence.
Qed.

(** Unfolds the comparisons of a goal into comparisons of keys. *)
Ltac float_keys :=
  unfold fle, flt in *;
  repeat match goal with
    | H : context [(_ <? _)%float] |- _ => rewrite ltb_key in H
    | H : context [(_ <=? _)%float] |- _ => rewrite leb_key in H
    | H : context [(_ =? _)%float] |- _ => rewrite eqb_key in H
    | H : is_nan _ = false |- _ => apply not_nan_key in H as [? H]
    | H : is_nan _ = true |- _ => apply is_nan_key in H
    end;
  rewrite ?ltb_key, ?leb_key, ?eqb_key.

Lemma flt_irrefl x : ¬ flt x x.
Proof.
  float_keys. destruct (fkey x) as [a|]; simpl; [|done].
  by rewrite lexcmp_refl.
Qed.

Lemma flt_trans x y z : flt x y → flt y z → flt x z.
Proof.
  intros Hxy Hyz. float_keys.
  destruct (fkey x) as [a|], (fkey y) as [b|], (fkey z) as [c|];
    simpl in *; try done.
  destruct (lexcmp a b) eqn:Eab; try done.
  destruct (lexcmp b c) eqn:Ebc; try done.
  by rewrite (lexcmp_lt_trans a b c).
Qed.

Lemma flt_fle x y : flt x y → fle x y.
Proof.
  intros H. float_keys.
  destruct (keycmp (fkey x) (fkey y)) as [[| |]|]; done.
Qed.

Lemma flt_not_fle x y : flt x y → ¬ fle y x.
Proof.
  intros H H'. float_keys.
  destruct (fkey x) as [a|], (fkey y) as [b|]; simpl in *; try done.
  rewrite (lexcmp_antisym a b) in H'.
  destruct (lexcmp a b); done.
Qed.


Lemma flt_not_nan x y : flt x y → is_nan x = false ∧ is_nan y = false.
Proof.
  intros H. rewrite !not_nan_key. float_keys.
  destruct (fkey x), (fkey y); done.
Qed.


(** What is above the running maximum is strictly above whatever is not. *)
Lemma above_rejected d x y : flt d x → ¬ flt d y → ¬ fle x y.
Proof.
  intros Hdx Hdy Hxy. apply Hdy. float_keys.
  destruct (fkey d) as [a|], (fkey x) as [b|], (fkey y) as [c|];
    simpl in *; try done.
  destruct (lexcmp a b) eqn:Eab; try done.
  destruct (lexcmp b c) eqn:Ebc; try done.
  - apply lexcmp_eq in Ebc as ->. by rewrite Eab.
  - by rewrite (lexcmp_lt_trans a b c).
Qed.

Lemma fle_trans x y z : fle x y → fle y z → fle x z.
Proof.
  intros Hxy Hyz. float_keys.
  destruct (fkey x) as [a|], (fkey y) as [b|], (fkey z) as [c|];
    simpl in *; try done.
  destruct (lexcmp a b) eqn:Eab; try done.
  - by apply lexcmp_eq in Eab as ->.
  - destruct (lexcmp b c) eqn:Ebc; try done.
    + apply lexcmp_eq in Ebc as ->. by rewrite Eab.
    + by rewrite (lexcmp_lt_trans a b c).
Qed.

(** Floats that [==] makes equal compare alike. *)
Lemma feq_key x y : (x =? y)%float = true → fkey x = fkey y.
Proof.
  intros H. float_keys.
  destruct (fkey x) as [a|], (fkey y) as [b|]; simpl in *; try done.
  destruct (lexcmp a b) eqn:E; try done. by apply lexcmp_eq in E as ->.
Qed.

Lemma feq_fle_l x y z : (x =? y)%float = true → fle y z → fle x z.
Proof. intros E H. apply feq_key in E. float_keys. by rewrite E. Qed.

Lemma feq_fle_r x y z : (x =? y)%float = true → fle z y → fle z x.
Proof. intros E H. apply feq_key in E. float_keys. by rewrite E. Qed.

Lemma feq_fle x y : (x =? y)%float = true → fle x y ∧ fle y x.
Proof.
  intros E. pose proof (feq_key x y E) as K. float_keys.
  rewrite K in *. destruct (fkey y) as [b|]; simpl in *; [|done].
  by rewrite lexcmp_refl.
Qed.

Lemma feq_not_flt x y : (x =? y)%float = true → ¬ flt y x.
Proof.
  intros E H. destruct (feq_fle x y E) as [H1 _].
  by apply (flt_not_fle y x).
Qed.


(** ** Signs of squares and sums *)

Lemma binary_round_aux_unsigned m e l :
  unsigned (binary_round_aux prec emax false m e l).
Proof.
  unfold binary_round_aux.
  destruct (shr_fexp prec emax m e l) as [mrs' e'].
  destruct (shr_fexp prec emax _ e' loc_Exact) as [mrs'' e''].
  destruct (shr_m mrs''); [done | | done].
  by destruct (Z.leb _ _).
Qed.

Lemma binary_round_unsigned m e :
  unsigned (binary_round prec emax false m e).
Proof.
  unfold binary_round. destruct (shl_align _ _ _) as [mz ez].
  apply binary_round_aux_unsigned.
Qed.

Lemma square_unsigned x : unsigned (Prim2SF (x * x)%float).
Proof.
  rewrite mul_spec. unfold SF64mul.
  destruct (Prim2SF x) as [s|s| |s m e]; simpl; try done;
    try (by destruct s).
  replace (xorb s s) with false by by destruct s.
  apply binary_round_aux_unsigned.
Qed.

Lemma sum_unsigned x y :
  unsigned (Prim2SF x) → unsigned (Prim2SF y) →
  unsigned (Prim2SF (x + y)%float).
Proof.
  rewrite add_spec. unfold SF64add.
  destruct (Prim2SF x) as [sx|sx| |sx mx ex],
           (Prim2SF y) as [sy|sy| |sy my ey]; simpl;
    intros Hx Hy; subst; try done.
  apply binary_round_unsigned.
Qed.

Lemma Prim2SF_nan x : Prim2SF x = S754_nan → is_nan x = true.
Proof.
  intros H. unfold is_nan. rewrite FloatAxioms.eqb_spec, H. done.
Qed.

(** The sentinel is below every unsigned number. *)
Lemma sentinel_below_unsigned x :
  unsigned (Prim2SF x) → is_nan x = false → flt (-1) x.
Proof.
  intros Hu Hn. unfold flt. rewrite FloatAxioms.ltb_spec.
  change (Prim2SF (-1)) with (S754_finite true 4503599627370496 (-52)).
  destruct (Prim2SF x) as [s|s| |s m e] eqn:E; simpl in Hu; subst; try done.
  apply Prim2SF_nan in E. congruence.
Qed.

(** ** The squared distance *)

(** The code's expression computes the specification's distance, and
    raises when that has no value. *)
Lemma distance_sq_squared_distance p r :
  distance_sq p r =
  match squared_distance p r with
  | Some x => Value x
  | None => Raises OverflowError
  end.
Proof.
  unfold distance_sq, squared_distance, squared_difference, pow2.
  unfold mbind, Evaluation_bind, option_bind.
  destruct (is_finite _ && is_infinity _); [done|].
  destruct (is_finite _ && is_infinity _); [done|].
  destruct (is_finite _ && is_infinity _); done.
Qed.

Lemma squared_distance_unsigned p r x :
  squared_distance p r = Some x → unsigned (Prim2SF x).
Proof.
  unfold squared_distance, squared_difference. intros H.
  unfold mbind, option_bind in H.
  destruct (is_finite _ && is_infinity _); [done|].
  destruct (is_finite _ && is_infinity _); [done|].
  destruct (is_finite _ && is_infinity _); [done|].
  injection H as <-.
  repeat apply sum_unsigned; apply square_unsigned.
Qed.

(** A squared distance is NaN or above the sentinel. *)
Lemma sentinel_below p r x :
  squared_distance p r = Some x → is_nan x = false → flt (-1) x.
Proof.
  intros H. apply sentinel_below_unsigned.
  by apply (squared_distance_unsigned p r).
Qed.




(** ** The region test *)

Lemma between_true_iff (lo x hi : float) :
  between lo x hi = true ↔ fle lo x ∧ fle x hi.
Proof. unfold between, fle. by rewrite andb_true_iff. Qed.

Lemma in_region_true_iff (self : PDcracktip) (p : Point) :
  in_region self p = true ↔
  ∀ k : Axis, fle (_region_min self).[k] p.[k] ∧
              fle p.[k] (_region_max self).[k].
Proof.
  unfold in_region. rewrite !andb_true_iff, !between_true_iff. split.
  - intros [[H0 H1] H2] []; assumption.
  - intros H. repeat split; apply H.
Qed.

Lemma degenerate_outside self p : degenerate self → in_region self p = false.
Proof.
  intros [k Hk]. destruct (in_region self p) eqn:Hr; [|done].
  exfalso. destruct (proj1 (in_region_true_iff self p) Hr k) as [H1 H2].
  apply (flt_not_fle _ _ Hk). by apply fle_trans with (p.[k]).
Qed.

(** ** The loop *)

Lemma for_each_app body l1 l2 self :
  for_each body (l1 ++ l2) self =
  match for_each body l1 self with
  | Some (Continue self') => for_each body l2 self'
  | stopped => stopped
  end.
Proof.
  revert self. induction l1 as [|i l1 IH]; intros self; simpl; [done|].
  destruct (body self i) as [[s|e s]|]; [apply IH | done | done].
Qed.

Lemma scan_S g a k self :
  scan g a (S k) self =
  match scan g a k self with
  | Some (Continue self') => loop_body g a self' k
  | stopped => stopped
  end.
Proof.
  unfold scan. rewrite seq_S, for_each_app. simpl.
  destruct (for_each _ _ self) as [[s|e s]|]; [|done..].
  by destruct (loop_body g a s k) as [[s'|e s']|].
Qed.

Lemma set_accumulator_eta (self : PDcracktip) :
  self = set_accumulator self (_global_max_distance_sq self)
                              (_global_current_tip self).
Proof. by destruct self. Qed.

Section Scan.

Variable self : PDcracktip.
Variable g : vtkUnstructuredGrid.
Variable a : list float.

Local Abbreviation cand := (cand self g a).
Local Abbreviation dist := (λ p, squared_distance p (_initial_tip self)).

Lemma loop_body_outside d0 p0 k p :
  GetPoint g k = Some p → in_region self p = false →
  loop_body g a (set_accumulator self d0 p0) k =
  Some (Continue (set_accumulator self d0 p0)).
Proof.
  intros Hp Hr. unfold loop_body, loop_condition. rewrite Hp. simpl.
  change (in_region (set_accumulator self d0 p0) p) with (in_region self p).
  by rewrite Hr.
Qed.

Lemma loop_body_below d0 p0 k p v :
  GetPoint g k = Some p → in_region self p = true →
  GetValue a k = Some v → (_d_c self <? v)%float = false →
  loop_body g a (set_accumulator self d0 p0) k =
  Some (Continue (set_accumulator self d0 p0)).
Proof.
  intros Hp Hr Hv Hc. unfold loop_body, loop_condition. rewrite Hp. simpl.
  change (in_region (set_accumulator self d0 p0) p) with (in_region self p).
  rewrite Hr, Hv. simpl. by rewrite Hc.
Qed.

Lemma loop_body_qualifying d0 p0 k p v :
  GetPoint g k = Some p → in_region self p = true →
  GetValue a k = Some v → (_d_c self <? v)%float = true →
  loop_body g a (set_accumulator self d0 p0) k =
  Some match dist p with
       | None => Abort OverflowError (set_accumulator self d0 p0)
       | Some x =>
           Continue (if (d0 <? x)%float
                     then set_accumulator self x p
                     else set_accumulator self d0 p0)
       end.
Proof.
  intros Hp Hr Hv Hc. unfold loop_body, loop_condition. rewrite Hp. simpl.
  change (in_region (set_accumulator self d0 p0) p) with (in_region self p).
  rewrite Hr, Hv. simpl. rewrite Hc.
  rewrite distance_sq_squared_distance.
  destruct (squared_distance p (_initial_tip self)) as [x|]; [|done].
  by destruct (d0 <? x)%float.
Qed.

Lemma not_cand_outside k p q :
  GetPoint g k = Some p → in_region self p = false → ¬ cand k q.
Proof.
  intros Hp Hr [Hq (v & _ & Hreg & _)].
  assert (q = p) by congruence. subst q.
  apply in_region_true_iff in Hreg. congruence.
Qed.

Lemma not_cand_below k p v q :
  GetPoint g k = Some p → GetValue a k = Some v →
  (_d_c self <? v)%float = false → ¬ cand k q.
Proof.
  intros Hp Hv Hc [Hq (v' & Hv' & _ & Hlt)].
  assert (v' = v) by congruence. subst v'.
  unfold flt in Hlt. congruence.
Qed.

Lemma cand_intro k p v :
  GetPoint g k = Some p → GetValue a k = Some v →
  in_region self p = true → (_d_c self <? v)%float = true → cand k p.
Proof.
  intros Hp Hv Hr Hc. split; [done|]. exists v. split; [done|]. split.
  - by apply in_region_true_iff.
  - done.
Qed.

Lemma cand_point k p q : cand k p → cand k q → q = p.
Proof. intros [Hp _] [Hq _]. congruence. Qed.

Lemma cand_distance k p q x y :
  cand k p → cand k q → dist p = Some x → dist q = Some y → y = x.
Proof.
  intros Hp Hq Hx Hy. rewrite (cand_point k p q Hp Hq) in Hy. congruence.
Qed.

Section Accumulate.

Variable p0 : Point.
Variable d0 : float.

Local Abbreviation accumulated := (accumulated self g a p0 d0).

(** An iteration on a point that does not qualify. *)
Lemma accumulated_skip k p d :
  (∀ q, ¬ cand k q) → accumulated k p d → accumulated (S k) p d.
Proof.
  intros Hk [Hkept | i p' x Hi Hc Hx Hgt Hmax Hfirst].
  - apply accumulated_kept. intros j q y Hj Hq.
    destruct (decide (j = k)) as [->|]; [by apply Hk in Hq|].
    apply (Hkept j); [lia | done].
  - apply accumulated_taken with i; [lia | done | done | done | | done].
    intros j q y Hj Hq.
    destruct (decide (j = k)) as [->|]; [by apply Hk in Hq|].
    apply (Hmax j); [lia | done].
Qed.

(** Nothing seen so far is above what the accumulator holds. *)
Lemma accumulated_bound k p d j q y :
  accumulated k p d → j < k → cand j q → dist q = Some y → ¬ flt d y.
Proof.
  intros [Hkept | i p' x Hi Hc Hx Hgt Hmax Hfirst] Hj Hq Hy.
  - by apply (Hkept j q).
  - by apply (Hmax j q).
Qed.

(** The running maximum is the one it started with or above it. *)
Lemma accumulated_grows k p d : accumulated k p d → d = d0 ∨ flt d0 d.
Proof.
  intros [Hkept | i p' x Hi Hc Hx Hgt Hmax Hfirst]; [by left | by right].
Qed.

(** An iteration that takes the point at index [k]. *)
Lemma accumulated_take k p1 d1 p x :
  cand k p → dist p = Some x → flt d1 x → accumulated k p1 d1 →
  accumulated (S k) p x.
Proof.
  intros Hk Hx Hgt Hacc.
  assert (Hbelow : ∀ j q y, j < k → cand j q → dist q = Some y →
                            ¬ fle x y).
  { intros j q y Hj Hq Hy. apply (above_rejected d1); [done|].
    by apply (accumulated_bound k p1 d1 j q). }
  apply accumulated_taken with k; [lia | done | done | | |].
  - destruct (accumulated_grows k p1 d1 Hacc) as [->|H0]; [done|].
    by apply flt_trans with d1.
  - intros j q y Hj Hq Hy. destruct (decide (j = k)) as [->|].
    + rewrite (cand_distance k p q x y Hk Hq Hx Hy). apply flt_irrefl.
    + intros Hlt. apply (Hbelow j q y); [lia | done | done |].
      by apply flt_fle.
  - exact Hbelow.
Qed.

(** An iteration whose point qualifies but is not above the maximum. *)
Lemma accumulated_keep k p1 d1 p x :
  cand k p → dist p = Some x → ¬ flt d1 x → accumulated k p1 d1 →
  accumulated (S k) p1 d1.
Proof.
  intros Hk Hx Hle Hacc.
  destruct Hacc as [Hkept | i p' x' Hi Hc Hx' Hgt Hmax Hfirst].
  - apply accumulated_kept. intros j q y Hj Hq Hy.
    destruct (decide (j = k)) as [->|].
    + by rewrite (cand_distance k p q x y Hk Hq Hx Hy).
    + apply (Hkept j q); [lia | done | done].
  - apply accumulated_taken with i; [lia | done | done | done | | done].
    intros j q y Hj Hq Hy. destruct (decide (j = k)) as [->|].
    + by rewrite (cand_distance k p q x y Hk Hq Hx Hy).
    + apply (Hmax j q); [lia | done | done].
Qed.

(** The first [k] iterations return when the array has [k] values, and
    end as [scan_result] describes. *)
Lemma scan_accumulates k :
  k ≤ GetNumberOfPoints g → k ≤ length a →
  ∃ flow, scan g a k (set_accumulator self d0 p0) = Some flow ∧
          scan_result self g a p0 d0 k flow.
Proof.
  intros Hk Hlen. induction k as [|k IH].
  - eexists. split; [reflexivity|].
    apply scan_completed; [|intros; lia].
    apply accumulated_kept. intros; lia.
  - destruct IH as (flow & Hscan & Hres); [lia|lia|].
    rewrite scan_S, Hscan.
    destruct Hres as [p1 d1 Hacc Hval | i q p1 d1 Hi Hq Hover Hacc Hval].
    2:{ eexists. split; [reflexivity|].
        apply scan_overflowed with i q; [lia | done..]. }
    destruct (lookup_lt_is_Some_2 (Points g) k) as [p Hp];
      [unfold GetNumberOfPoints in Hk; lia|].
    change (Points g !! k = Some p) with (GetPoint g k = Some p) in Hp.
    destruct (in_region self p) eqn:Hr.
    + destruct (lookup_lt_is_Some_2 a k) as [v Hv]; [lia|].
      change (a !! k = Some v) with (GetValue a k = Some v) in Hv.
      destruct (_d_c self <? v)%float eqn:Hc.
      * pose proof (cand_intro k p v Hp Hv Hr Hc) as Hcand.
        rewrite (loop_body_qualifying d1 p1 k p v Hp Hr Hv Hc).
        destruct (squared_distance p (_initial_tip self)) as [x|] eqn:Hx.
        -- eexists. split; [reflexivity|].
           assert (Hval' : ∀ j q, j < S k → cand j q → is_Some (dist q)).
           { intros j q Hj Hq. destruct (decide (j = k)) as [->|].
             - rewrite (cand_point k p q Hcand Hq). by rewrite Hx.
             - apply (Hval j); [lia | done]. }
           destruct (d1 <? x)%float eqn:Hd.
           ++ apply scan_completed; [|done].
              by apply accumulated_take with p1 d1.
           ++ apply scan_completed; [|done].
              apply accumulated_keep with p x; [done | done | | done].
              unfold flt. congruence.
        -- eexists. split; [reflexivity|].
           apply scan_overflowed with k p; [lia | done..].
      * rewrite (loop_body_below d1 p1 k p v Hp Hr Hv Hc).
        eexists. split; [reflexivity|]. apply scan_completed.
        -- apply accumulated_skip; [|done].
           intros q. by apply not_cand_below with p v.
        -- intros j q Hj Hq. destruct (decide (j = k)) as [->|].
           ++ by destruct (not_cand_below k p v q Hp Hv Hc).
           ++ apply (Hval j); [lia | done].
    + rewrite (loop_body_outside d1 p1 k p Hp Hr).
      eexists. split; [reflexivity|]. apply scan_completed.
      * apply accumulated_skip; [|done].
        intros q. by apply not_cand_outside with p.
      * intros j q Hj Hq. destruct (decide (j = k)) as [->|].
        -- by destruct (not_cand_outside k p q Hp Hr).
        -- apply (Hval j); [lia | done].
Qed.

End Accumulate.

End Scan.

(** A scan in which no point lies in the region never reads the array and
    leaves the object as it was. *)
Lemma scan_outside self g a k :
  (∀ i p, GetPoint g i = Some p → in_region self p = false) →
  k ≤ GetNumberOfPoints g →
  scan g a k (reset self) = Some (Continue (reset self)).
Proof.
  intros Hout Hk. induction k as [|k IH]; [done|].
  rewrite scan_S, IH by lia.
  destruct (lookup_lt_is_Some_2 (Points g) k) as [p Hp];
    [unfold GetNumberOfPoints in Hk; lia|].
  apply (loop_body_outside self g a (-1)%float (_initial_tip self) k p Hp).
  by apply (Hout k).
Qed.

(** ** The whole invocation *)

Lemma candidate_cand self g a i p :
  GetArray (PointData g) (_array_name self) = Some a →
  candidate self g i p ↔ cand self g a i p.
Proof.
  intros Ha. unfold candidate, cand. split.
  - intros [Hp (a' & v & Ha' & Hv & Hq)].
    assert (a' = a) by congruence. subst a'. eauto.
  - intros [Hp (v & Hv & Hq)]. eauto 6.
Qed.

Lemma candidate_needs_array self g i p :
  GetArray (PointData g) (_array_name self) = None → ¬ candidate self g i p.
Proof. intros Ha [_ (a & v & Ha' & _)]. congruence. Qed.

Lemma candidate_in_range self g i p :
  candidate self g i p → i < GetNumberOfPoints g.
Proof. intros [Hp _]. by apply lookup_lt_Some in Hp. Qed.


Lemma single_vertex_stored p :
  single_vertex p = one_vertex_grid (single_precision p).
Proof. by destruct p as [[x y] z]. Qed.

(** [RequestData] on a grid, given how its scan ends. *)
Lemma RequestData_scan self inp out h g a flow :
  h !! inp = Some (UnstructuredGrid g) →
  GetArray (PointData g) (_array_name self) = Some a →
  scan g a (GetNumberOfPoints g) (reset self) = Some flow →
  RequestData self (Some inp) out h =
  Some match flow with
       | Continue self' =>
           {| returned := Return 1;
              filter := self';
              heap := <[out := UnstructuredGrid
                                 (one_vertex_grid
                                    (single_precision
                                       (_global_current_tip self')))]> h;
              printed := grid_diagnostics self g |}
       | Abort e self' =>
           {| returned := Propagate e;
              filter := self';
              heap := h;
              printed := grid_diagnostics self g |}
       end.
Proof.
  intros Hin Ha Hscan. unfold RequestData, grid_diagnostics. simpl.
  rewrite Hin. simpl.
  change (_array_name (reset self)) with (_array_name self).
  rewrite Ha, Hscan. simpl.
  destruct flow as [s|e s]; [|done]. by rewrite single_vertex_stored.
Qed.

Lemma RequestData_no_array self inp out h g :
  h !! inp = Some (UnstructuredGrid g) →
  GetArray (PointData g) (_array_name self) = None →
  RequestData self (Some inp) out h =
  Some {| returned := Return 1;
          filter := reset self;
          heap := <[out := UnstructuredGrid
                             (one_vertex_grid
                                (single_precision (_initial_tip self)))]> h;
          printed := grid_diagnostics self g |}.
Proof.
  intros Hin Ha. unfold RequestData, grid_diagnostics. simpl.
  rewrite Hin. simpl.
  change (_array_name (reset self)) with (_array_name self).
  rewrite Ha. simpl. by rewrite single_vertex_stored.
Qed.

(** What the accumulator holds after a whole scan from the reset object. *)
Lemma accumulated_located self g a p d :
  GetArray (PointData g) (_array_name self) = Some a →
  accumulated self g a (_initial_tip self) (-1)%float
    (GetNumberOfPoints g) p d →
  located self g p d.
Proof.
  intros Ha [Hkept | i p' x Hi Hc Hx Hgt Hmax Hfirst].
  - apply located_none. intros j q y Hq Hy.
    destruct (is_nan y) eqn:Hnan; [done|]. exfalso.
    apply (Hkept j q y); [by eapply candidate_in_range | | done |].
    + by apply candidate_cand.
    + by apply (sentinel_below q (_initial_tip self)).
  - apply located_some with i.
    + by apply (candidate_cand self g a).
    + done.
    + by destruct (flt_not_nan _ _ Hgt).
    + intros j q y Hq. apply (Hmax j); [by eapply candidate_in_range|].
      by apply candidate_cand.
    + intros j q y Hj Hq. apply (Hfirst j); [done|].
      by apply candidate_cand.
Qed.

(** The invocation on a readable grid returns: with return code 1 and the
    located point in the output, or with an [OverflowError] raised by the
    square of a qualifying point. *)
Lemma RequestData_grid self inp out h g :
  h !! inp = Some (UnstructuredGrid g) →
  readable self g →
  (∃ tip d,
     RequestData self (Some inp) out h =
     Some {| returned := Return 1;
             filter := set_accumulator self d tip;
             heap := <[out := UnstructuredGrid
                                (one_vertex_grid (single_precision tip))]> h;
             printed := grid_diagnostics self g |} ∧
     located self g tip d ∧ no_overflow self g)
  ∨
  (∃ i q tip d,
     candidate self g i q ∧
     squared_distance q (_initial_tip self) = None ∧
     RequestData self (Some inp) out h =
     Some {| returned := Propagate OverflowError;
             filter := set_accumulator self d tip;
             heap := h;
             printed := grid_diagnostics self g |}).
Proof.
  intros Hin Hread.
  destruct (GetArray (PointData g) (_array_name self)) as [a|] eqn:Ha.
  - destruct (scan_accumulates self g a (_initial_tip self) (-1)%float
                (GetNumberOfPoints g))
      as (flow & Hscan & Hres); [lia | by apply Hread |].
    pose proof (RequestData_scan self inp out h g a flow Hin Ha Hscan)
      as Hrun.
    destruct Hres as [p d Hacc Hval | i q p d Hi Hq Hover Hacc Hval].
    + left. exists p, d. split; [exact Hrun|]. split.
      * by apply (accumulated_located self g a).
      * intros j q Hq. apply (Hval j); [by eapply candidate_in_range|].
        by apply candidate_cand.
    + right. exists i, q, p, d. split; [by apply (candidate_cand self g a)|].
      split; [done | exact Hrun].
  - left. exists (_initial_tip self), (-1)%float.
    split; [by apply RequestData_no_array|]. split.
    + apply located_none. intros j q y Hq.
      by destruct (candidate_needs_array self g j q).
    + intros j q Hq. by destruct (candidate_needs_array self g j q).
Qed.

Lemma single_precision_exact p :
  (∀ k, to_float32 p.[k] = p.[k]) → single_precision p = p.
Proof.
  intros H. unfold single_precision.
  rewrite (H Ax0), (H Ax1), (H Ax2). by destruct p as [[x y] z].
Qed.

(** ** The located tip *)


(** C2, as amended: when no point qualifies, and in particular when the
    region is degenerate or the point set is empty, the invocation returns
    1 without an error diagnostic, keeps exactly the reference point as its
    tip and writes to the output the reference point in single precision,
    which is the reference point itself when its coordinates are
    single-precision values. *)
Theorem no_qualifying_point_returns_reference self inp out h g :
  h !! inp = Some (UnstructuredGrid g) →
  (readable self g ∧ ∀ j q, ¬ candidate self g j q) ∨
  degenerate self ∨
  Points g = [] →
  ∃ o,
    RequestData self (Some inp) out h = Some o ∧
    returned o = Return 1 ∧
    filter o = reset self ∧
    printed o = grid_diagnostics self g ∧
    heap o =
      <[out := UnstructuredGrid
                 (one_vertex_grid (single_precision (_initial_tip self)))]>
        h ∧
    ((∀ k, to_float32 (_initial_tip self).[k] = (_initial_tip self).[k]) →
     heap o !! out =
       Some (UnstructuredGrid (one_vertex_grid (_initial_tip self)))).
Proof.
  intros Hin Hcase.
  assert (RequestData self (Some inp) out h =
          Some {| returned := Return 1;
                  filter := reset self;
                  heap := <[out := UnstructuredGrid
                                     (one_vertex_grid
                                        (single_precision
                                           (_initial_tip self)))]> h;
                  printed := grid_diagnostics self g |}) as Hrun.
  { destruct (GetArray (PointData g) (_array_name self)) as [a|] eqn:Ha;
      [|by apply RequestData_no_array].
    destruct Hcase as [[Hread Hnone] | [Hdeg | Hempty]].
    - destruct (RequestData_grid self inp out h g Hin Hread)
        as [(tip & d & Hrun & Hloc & _) | (i & q & _ & _ & Hq & _)].
      + destruct Hloc as [_ | i p x Hc _ _ _ _]; [exact Hrun|].
        by destruct (Hnone i p).
      + by destruct (Hnone i q).
    - rewrite (RequestData_scan self inp out h g a (Continue (reset self)));
        [done | done | done |].
      apply scan_outside; [|done].
      intros i p _. by apply degenerate_outside.
    - rewrite (RequestData_scan self inp out h g a (Continue (reset self)));
        [done | done | done |].
      unfold GetNumberOfPoints. by rewrite Hempty. }
  eexists. split; [exact Hrun|]. simpl. repeat (split; [done|]).
  intros Hexact. rewrite lookup_insert_eq.
  by rewrite single_precision_exact.
Qed.

(** C3: the guard of the update holds exactly for a point inside the
    inclusive region on all three axes whose field value is strictly above
    the threshold; a value equal to the threshold fails it, and a point
    lying on a bound of the region on some axis passes the region test. *)
Theorem qualifying_predicate self a i p v :
  GetValue a i = Some v →
  (loop_condition self a i p = Some true ↔ Qualifies self p v) ∧
  ((v =? _d_c self)%float = true → loop_condition self a i p = Some false) ∧
  (∀ k0 : Axis,
     (p.[k0] =? (_region_min self).[k0])%float = true ∨
     (p.[k0] =? (_region_max self).[k0])%float = true →
     fle (_region_min self).[k0] (_region_max self).[k0] →
     (∀ k, k ≠ k0 → fle (_region_min self).[k] p.[k] ∧
                    fle p.[k] (_region_max self).[k]) →
     in_region self p = true).
Proof.
  intros Hv. unfold loop_condition. rewrite Hv. simpl.
  split; [split|split].
  - intros H. split; revert H; destruct (in_region self p) eqn:Hr;
      try done; intros H.
    + by apply in_region_true_iff.
    + unfold flt. congruence.
  - intros [Hr Hlt]. apply in_region_true_iff in Hr. rewrite Hr.
    unfold flt in Hlt. by rewrite Hlt.
  - intros Heq. destruct (in_region self p); [|done].
    f_equal. destruct (_d_c self <? v)%float eqn:Hlt; [|done].
    by destruct (feq_not_flt v (_d_c self) Heq).
  - intros k0 Hon Hbox Hrest. apply in_region_true_iff. intros k.
    destruct (decide (k = k0)) as [->|Hne]; [|by apply Hrest].
    destruct Hon as [Hon | Hon]; destruct (feq_fle _ _ Hon) as [H1 H2].
    + split; [done|]. by apply (feq_fle_l _ _ _ Hon).
    + split; [|done]. by apply (feq_fle_r _ _ _ Hon).
Qed.



(** ** Error paths *)

(** C6, as amended: when the requested array is absent from the grid's
    point data, the invocation prints the array-not-found diagnostic,
    returns 1, keeps the reference point as its tip and writes to the
    output the reference point in single precision, which is the reference
    point itself when its coordinates are single-precision values. *)
Theorem field_not_found_is_recovered self inp out h g :
  h !! inp = Some (UnstructuredGrid g) →
  GetArray (PointData g) (_array_name self) = None →
  ∃ o,
    RequestData self (Some inp) out h = Some o ∧
    returned o = Return 1 ∧
    filter o = reset self ∧
    printed o =
      [MsgRequestData (_d_c self) (_array_name self);
       MsgProcessingBlock "vtkUnstructuredGrid";
       MsgNumberOfArrays (GetNumberOfArrays (PointData g));
       MsgArrayNotFound (_array_name self) "vtkUnstructuredGrid"] ∧
    heap o =
      <[out := UnstructuredGrid
                 (one_vertex_grid (single_precision (_initial_tip self)))]>
        h ∧
    ((∀ k, to_float32 (_initial_tip self).[k] = (_initial_tip self).[k]) →
     heap o !! out =
       Some (UnstructuredGrid (one_vertex_grid (_initial_tip self)))).
Proof.
  intros Hin Ha. eexists.
  split; [apply (RequestData_no_array self inp out h g Hin Ha)|]. simpl.
  split; [done|]. split; [done|].
  split; [unfold grid_diagnostics; by rewrite Ha|]. split; [done|].
  intros Hexact. rewrite lookup_insert_eq.
  by rewrite single_precision_exact.
Qed.

(** C7: when the input is not an unstructured grid (or there is none), the
    invocation prints the unsupported-input diagnostic, returns 0 and leaves
    every data object, the output included, as it was. *)
Theorem unsupported_input_is_reported self inInfo out h :
  (∀ g, inInfo ≫= (h !!.) ≠ Some (UnstructuredGrid g)) →
  RequestData self inInfo out h =
  Some {| returned := Return 0;
          filter := reset self;
          heap := h;
          printed := [MsgRequestData (_d_c self) (_array_name self);
                      MsgUnsupportedInput] |}.
Proof.
  intros Hother. unfold RequestData.
  destruct (inInfo ≫= (h !!.)) as [[g|c pd|c]|] eqn:Hin; try done.
  by destruct (Hother g).
Qed.

(** ** State *)

Lemma reset_config self1 self2 :
  config self1 = config self2 → reset self1 = reset self2.
Proof.
  destruct self1, self2. unfold config. simpl.
  intros H. injection H as -> -> -> -> ->. reflexivity.
Qed.

(** C8, as amended: the running maximum is kept in two fields of the filter
    object, which every invocation overwrites before it scans; two
    invocations on objects of equal configuration, with the same input,
    output and heap, have the same outcome whatever the fields held. *)
Theorem invocations_ignore_earlier_accumulator self1 self2 inInfo out h :
  config self1 = config self2 →
  RequestData self1 inInfo out h = RequestData self2 inInfo out h.
Proof.
  intros Hcfg.
  assert (reset self1 = reset self2) as Hreset by by apply reset_config.
  assert (_d_c self1 = _d_c self2 ∧ _array_name self1 = _array_name self2)
    as [Hd Hn].
  { unfold config in Hcfg. by injection Hcfg as -> -> _ _ _. }
  unfold RequestData. by rewrite Hreset, Hd, Hn.
Qed.

(** C10, as amended: on a readable grid the invocation returns.  When it
    returns 1 the output object is a grid of exactly one point, the located
    tip in single precision, and exactly one vertex cell, which refers to
    that point; otherwise the square of a qualifying point's coordinate
    difference has overflowed, [OverflowError] propagates and no data
    object is written. *)
Theorem output_is_one_vertex self inp out h g :
  h !! inp = Some (UnstructuredGrid g) →
  readable self g →
  ∃ o,
    RequestData self (Some inp) out h = Some o ∧
    ((returned o = Return 1 ∧
      ∃ u, heap o !! out = Some (UnstructuredGrid u) ∧
           Points u = [single_precision (_global_current_tip (filter o))] ∧
           Cells u = [(VTK_VERTEX, [0])])
     ∨
     (returned o = Propagate OverflowError ∧ heap o = h ∧
      ∃ i q, candidate self g i q ∧
             squared_distance q (_initial_tip self) = None)).
Proof.
  intros Hin Hread.
  destruct (RequestData_grid self inp out h g Hin Hread)
    as [(tip & d & Hrun & _) | (i & q & tip & d & Hq & Hover & Hrun)].
  - eexists. split; [exact Hrun|]. left. split; [done|].
    eexists. split; [apply lookup_insert_eq | done].
  - eexists. split; [exact Hrun|]. right. split; [done|]. split; [done|].
    by exists i, q.
Qed.

(** * The rest of the class *)

(** ** ProcessBlock on an object that is not reset *)

Lemma loop_body_config g a self i flow :
  loop_body g a self i = Some flow → config (object_of flow) = config self.
Proof.
  unfold loop_body. intros H.
  destruct (GetPoint g i) as [p|]; simpl in H; [|done].
  destruct (loop_condition self a i p) as [[|]|]; simpl in H;
    [|by simplify_eq|done].
  destruct (distance_sq p (_initial_tip self)) as [d|e]; [|by simplify_eq].
  destruct (_ <? _)%float; by simplify_eq.
Qed.

Lemma scan_config g a k self flow :
  scan g a k self = Some flow → config (object_of flow) = config self.
Proof.
  revert flow. induction k as [|k IH]; intros flow H.
  - unfold scan in H. simpl in H. by simplify_eq.
  - rewrite scan_S in H.
    destruct (scan g a k self) as [[s|e s]|]; [| |done].
    + rewrite (loop_body_config g a s k flow H). by apply (IH (Continue s)).
    + simplify_eq. by apply (IH (Abort e s)).
Qed.

Lemma ProcessBlock_config self block flow log :
  ProcessBlock self block = Some (flow, log) →
  config (object_of flow) = config self.
Proof.
  unfold ProcessBlock. intros H.
  destruct block as [[g|c pd|c]|]; [|by simplify_eq..].
  destruct (GetArray _ _) as [a|]; [|by simplify_eq].
  destruct (scan g a (GetNumberOfPoints g) self) as [f|] eqn:Hs;
    simpl in H; [|done].
  simplify_eq. by apply scan_config in Hs.
Qed.


(** ** ProcessBlock block by block *)

(** An iteration looks at the grid and the array at its own index only. *)
Lemma loop_body_ext g a i g' a' i' self :
  GetPoint g i = GetPoint g' i' → GetValue a i = GetValue a' i' →
  loop_body g a self i = loop_body g' a' self i'.
Proof.
  intros Hp Hv. unfold loop_body, loop_condition. by rewrite Hp, Hv.
Qed.

Lemma for_each_ext body1 body2 idxs self :
  (∀ s i, i ∈ idxs → body1 s i = body2 s i) →
  for_each body1 idxs self = for_each body2 idxs self.
Proof.
  revert self. induction idxs as [|i idxs IH]; intros self Hext; [done|].
  simpl. rewrite (Hext self i) by left.
  destruct (body2 self i) as [[s|e s]|]; [|done..].
  apply IH. intros s' j Hj. apply Hext. by right.
Qed.

Lemma for_each_fmap body (f : nat → nat) idxs self :
  for_each body (f <$> idxs) self =
  for_each (λ s i, body s (f i)) idxs self.
Proof.
  revert self. induction idxs as [|i idxs IH]; intros self; [done|].
  simpl. destruct (body self (f i)) as [[s|e s]|]; [apply IH | done..].
Qed.

(** Scanning a grid whose points and values are those of two blocks, one
    after the other, is scanning the first block and then, unless an
    exception has left it, the second. *)
Lemma scan_app g g1 g2 a1 a2 self :
  Points g = Points g1 ++ Points g2 →
  length a1 = GetNumberOfPoints g1 →
  scan g (a1 ++ a2) (GetNumberOfPoints g) self =
  match scan g1 a1 (GetNumberOfPoints g1) self with
  | Some (Continue self') => scan g2 a2 (GetNumberOfPoints g2) self'
  | stopped => stopped
  end.
Proof.
  intros Hpts Hlen. unfold scan, GetNumberOfPoints in *.
  rewrite Hpts, length_app, seq_app, for_each_app. simpl.
  rewrite (for_each_ext (loop_body g (a1 ++ a2)) (loop_body g1 a1)).
  - destruct (for_each _ (seq 0 (length (Points g1))) self) as [[s|e s]|];
      [|done..].
    rewrite <- (Nat.add_0_r (length (Points g1))) at 1.
    rewrite <- fmap_add_seq, for_each_fmap.
    apply for_each_ext. intros s' i _. apply loop_body_ext.
    + unfold GetPoint. rewrite Hpts, lookup_app_r by lia.
      f_equal. lia.
    + unfold GetValue. rewrite lookup_app_r by lia. f_equal. lia.
  - intros s i Hi. apply elem_of_seq in Hi. apply loop_body_ext.
    + unfold GetPoint. rewrite Hpts. apply lookup_app_l. lia.
    + unfold GetValue. apply lookup_app_l. lia.
Qed.

(** X2: processing two readable blocks one after the other ends as
    processing one grid that holds the points and the values of the first
    block followed by those of the second: with the same object, or with
    the same exception and the object as the exception found it (the
    second block is then not processed). *)
Theorem ProcessBlock_block_by_block self g g1 g2 a1 a2 :
  Points g = Points g1 ++ Points g2 →
  GetArray (PointData g1) (_array_name self) = Some a1 →
  GetArray (PointData g2) (_array_name self) = Some a2 →
  GetArray (PointData g) (_array_name self) = Some (a1 ++ a2) →
  length a1 = GetNumberOfPoints g1 →
  GetNumberOfPoints g2 ≤ length a2 →
  ∃ flow1 log1 flow log,
    ProcessBlock self (Some (UnstructuredGrid g1)) = Some (flow1, log1) ∧
    ProcessBlock self (Some (UnstructuredGrid g)) = Some (flow, log) ∧
    match flow1 with
    | Continue self1 =>
        ∃ log2,
          ProcessBlock self1 (Some (UnstructuredGrid g2)) = Some (flow, log2)
    | Abort e self1 => flow = Abort e self1
    end.
Proof.
  intros Hpts Ha1 Ha2 Ha Hlen1 Hlen2.
  destruct (scan_accumulates self g1 a1 (_global_current_tip self)
              (_global_max_distance_sq self) (GetNumberOfPoints g1))
    as (flow1 & Hscan1 & Hres1); [lia | lia |].
  rewrite <- set_accumulator_eta in Hscan1.
  pose proof (scan_app g g1 g2 a1 a2 self Hpts Hlen1) as Happ.
  rewrite Hscan1 in Happ.
  destruct Hres1 as [p1 d1 _ _ | i q p1 d1 _ _ _ _ _].
  - destruct (scan_accumulates self g2 a2 p1 d1 (GetNumberOfPoints g2))
      as (flow & Hscan2 & _); [lia | lia |].
    rewrite Hscan2 in Happ.
    eexists _, _, flow, _. split; [|split].
    + unfold ProcessBlock. rewrite Ha1, Hscan1. reflexivity.
    + unfold ProcessBlock. rewrite Ha, Happ. reflexivity.
    + eexists. unfold ProcessBlock.
      change (_array_name (set_accumulator self d1 p1))
        with (_array_name self).
      rewrite Ha2, Hscan2. reflexivity.
  - eexists _, _, _, _. split; [|split].
    + unfold ProcessBlock. rewrite Ha1, Hscan1. reflexivity.
    + unfold ProcessBlock. rewrite Ha, Happ. reflexivity.
    + reflexivity.
Qed.

(** ** Running the filter again *)

(** X3: executing the filter a second time, on the object and the heap the
    first execution left, gives the outcome of the first execution again,
    provided the input object is not the output object. *)
Theorem RequestData_again self inInfo out h o :
  (∀ inp, inInfo = Some inp → inp ≠ out) →
  RequestData self inInfo out h = Some o →
  RequestData (filter o) inInfo out (heap o) = Some o.
Proof.
  intros Hne Hrun. unfold RequestData in Hrun.
  destruct (inInfo ≫= (h !!.)) as [[g|c pd|c]|] eqn:Hin.
  - destruct (ProcessBlock (reset self) (Some (UnstructuredGrid g)))
      as [[flow log1]|] eqn:Hpb; simpl in Hrun; [|done].
    pose proof (ProcessBlock_config _ _ _ _ Hpb) as Hcfg.
    change (config (reset self)) with (config self) in Hcfg.
    assert (reset (object_of flow) = reset self) as Hreset
      by by apply reset_config.
    assert (_d_c (object_of flow) = _d_c self ∧
            _array_name (object_of flow) = _array_name self) as [Hd Hn].
    { unfold config in Hcfg. by injection Hcfg as -> -> _ _ _. }
    destruct inInfo as [inp|]; [|discriminate Hin]. simpl in Hin.
    destruct flow as [s|e s]; injection Hrun as <-;
      cbn [object_of filter heap] in *.
    + unfold RequestData. simpl.
      rewrite lookup_insert_ne by (intros ->; by apply (Hne inp)).
      rewrite Hin, Hreset, Hpb, Hd, Hn. simpl.
      by rewrite insert_insert_eq.
    + unfold RequestData. simpl.
      rewrite Hin, Hreset, Hpb, Hd, Hn. done.
  - injection Hrun as <-. unfold RequestData. simpl. by rewrite Hin.
  - injection Hrun as <-. unfold RequestData. simpl. by rewrite Hin.
  - injection Hrun as <-. unfold RequestData. simpl. by rewrite Hin.
Qed.

(** ** The property setters *)

Lemma call_keeps_array_name_valid self c :
  _array_name self ≠ "" ∧ _array_name self ≠ "None" →
  _array_name (call self c) ≠ "" ∧ _array_name (call self c) ≠ "None".
Proof.
  intros Hok. destruct c as [v | x y z | x y z | x y z | n]; simpl; try done.
  unfold SetArrayName.
  destruct (String.eqb_spec n ""); simpl; [done|].
  destruct (String.eqb_spec n "None"); simpl; done.
Qed.

Lemma call_keeps_accumulator self c :
  accumulator (call self c) = accumulator self.
Proof.
  destruct c as [v | x y z | x y z | x y z | n]; simpl; try done.
  unfold SetArrayName. by destruct (_ && _).
Qed.

(** X7: after construction and any sequence of setter calls, the array name
    is neither empty nor ["None"], and the tip and the running maximum are
    still those of construction. *)
Theorem setters_keep_name_valid_and_accumulator VTK_FLOAT_MAX calls :
  _array_name (configure (init VTK_FLOAT_MAX) calls) ≠ "" ∧
  _array_name (configure (init VTK_FLOAT_MAX) calls) ≠ "None" ∧
  accumulator (configure (init VTK_FLOAT_MAX) calls) =
    ((0, 0, 0)%float, (-1)%float).
Proof.
  assert (∀ self,
            (_array_name self ≠ "" ∧ _array_name self ≠ "None") →
            (_array_name (configure self calls) ≠ "" ∧
             _array_name (configure self calls) ≠ "None") ∧
            accumulator (configure self calls) = accumulator self) as H.
  { unfold configure. induction calls as [|c calls IH]; intros self Hok.
    - done.
    - simpl. destruct (IH (call self c)) as [Hn Ha].
      + by apply call_keeps_array_name_valid.
      + split; [done|]. by rewrite Ha, call_keeps_accumulator. }
  destruct (H (init VTK_FLOAT_MAX)) as [[H1 H2] H3]; [done|].
  repeat split; done.
Qed.

(** ** GetArrayList *)

Lemma add_array_names_middle pre rest names :
  add_array_names (pre ++ rest) (seq (length pre) (length rest)) names =
  Some (list_to_set rest.*1 ∪ names).
Proof.
  revert pre names. induction rest as [|[n a] rest IH]; intros pre names.
  - simpl. f_equal. set_solver.
  - simpl. unfold GetArrayName, vtkPointData.
    rewrite list_lookup_middle by done. simpl.
    replace (pre ++ (n, a) :: rest) with ((pre ++ [(n, a)]) ++ rest)
      by by rewrite <- app_assoc.
    replace (S (length pre)) with (length (pre ++ [(n, a)]))
      by (rewrite length_app; simpl; lia).
    rewrite IH. f_equal. set_solver.
Qed.

Lemma GetAbstractArray_named pd name a :
  GetAbstractArray pd name = Some a → Some name ∈ pd.*1.
Proof.
  induction pd as [|[[n|] b] pd IH]; simpl; [done | |].
  - destruct (String.eqb_spec n name) as [->|Hne].
    + intros _. left.
    + intros H. right. by apply IH.
  - intros H. right. by apply IH.
Qed.

(** X8: for an input that is a data set, of whatever class, [GetArrayList]
    returns a list without duplicates that holds exactly the names
    [GetArrayName] gives for the arrays of the point data, of every kind;
    every name under which [GetArray] finds an array is in it. *)
Theorem GetArrayList_lists_the_arrays inp h o pd :
  h !! inp = Some o →
  GetPointData o = Value pd →
  ∃ names,
    GetArrayList (Some inp) h = Some (Value names) ∧
    NoDup names ∧
    (∀ n, n ∈ names ↔ ∃ i, GetArrayName pd i = Some n) ∧
    (∀ name, is_Some (GetArray pd name) → Some name ∈ names).
Proof.
  intros Hin Hpd. unfold GetArrayList. simpl. rewrite Hin, Hpd.
  unfold GetNumberOfArrays.
  rewrite (add_array_names_middle [] pd ∅). simpl.
  eexists. split; [reflexivity|]. split; [apply NoDup_elements|].
  assert (∀ n, n ∈ elements (list_to_set pd.*1 ∪ ∅ : gset (option string))
               ↔ n ∈ pd.*1) as Hmem.
  { intros n. rewrite elem_of_elements. set_solver. }
  split.
  - intros n. rewrite Hmem, list_elem_of_lookup. unfold GetArrayName.
    by setoid_rewrite list_lookup_fmap.
  - intros name [a Ha]. apply Hmem. unfold GetArray in Ha.
    destruct (GetAbstractArray pd name) as [b|] eqn:Hb; [|done].
    by apply (GetAbstractArray_named pd name b).
Qed.

(** ** Fewer qualifying points, nearer tip *)













(** ** The order of the points *)



(** * The sample data *)

Import Sample.

(** The four examples of the specification. *)

Example example_1 :
  (o ← RequestData fresh (Some 1%positive) 9%positive objects;
   Some (returned o, heap o !! 9%positive)) =
  Some (Return 1,
        Some (UnstructuredGrid (one_vertex_grid (1, 0, 0)%float))).
Proof. reflexivity. Qed.

Example example_2 :
  (o ← RequestData narrow (Some 2%positive) 9%positive objects;
   Some (returned o, heap o !! 9%positive)) =
  Some (Return 1,
        Some (UnstructuredGrid (one_vertex_grid (0, 0, 0)%float))).
Proof. reflexivity. Qed.

Example example_3 :
  (o ← RequestData fresh (Some 5%positive) 9%positive objects;
   Some (returned o, heap o !! 9%positive, printed o)) =
  Some (Return 1,
        Some (UnstructuredGrid (one_vertex_grid (0, 0, 0)%float)),
        [MsgRequestData 0.5 "d"; MsgProcessingBlock "vtkUnstructuredGrid";
         MsgNumberOfArrays 2; MsgArrayNotFound "d" "vtkUnstructuredGrid"]).
Proof. reflexivity. Qed.

Example example_4 :
  (o ← RequestData fresh (Some 8%positive) 9%positive objects;
   Some (returned o, heap o !! 9%positive)) =
  Some (Return 1,
        Some (UnstructuredGrid (one_vertex_grid (0, 0, 0)%float))).
Proof. reflexivity. Qed.

(** The ring has three points at the same distance; the first is kept. *)
Example example_tie :
  (o ← RequestData fresh (Some 3%positive) 9%positive objects;
   Some (_global_current_tip (filter o))) = Some (1, 0, 0)%float.
Proof. reflexivity. Qed.

(** The two points of [far_pair] are at different distances, which binary64
    computes equal; the first is kept, the second is the farther one. *)
Example example_rounding :
  (o ← RequestData fresh (Some 10%positive) 9%positive objects;
   Some (accumulator (filter o))) = Some ((1e8, 0, 0), 1e16)%float ∧
  squared_distance (1e8, 0.5, 0)%float (0, 0, 0)%float = Some 1e16%float.
Proof. split; reflexivity. Qed.

(** The two points of [mirrored_pair] are at the same distance, which
    binary64 computes larger for the second; the second is kept. *)
Example example_mirrored :
  (o ← RequestData fresh (Some 11%positive) 9%positive objects;
   Some (accumulator (filter o))) =
  Some ((0x1.4p-27, 0x1.4p-27, 1), 0x1.0000000000001p+0)%float ∧
  squared_distance (1, 0x1.4p-27, 0x1.4p-27)%float (0, 0, 0)%float =
  Some 1%float.
Proof. split; reflexivity. Qed.

(** With the reference point at 1e200 the square of the difference to the
    origin is no float: the exception leaves the invocation before it
    writes the output. *)
Example example_overflow :
  (o ← RequestData remote (Some 12%positive) 9%positive objects;
   Some (returned o, heap o !! 9%positive)) =
  Some (Propagate OverflowError, Some (UnstructuredGrid empty_grid)).
Proof. reflexivity. Qed.

(** The reference point 0.1 is written as the nearest single-precision
    value, and kept as it is in the object. *)
Example example_single_precision :
  (o ← RequestData tenth (Some 8%positive) 9%positive objects;
   Some (_global_current_tip (filter o), heap o !! 9%positive)) =
  Some ((0.1, 0, 0)%float,
        Some (UnstructuredGrid
                (one_vertex_grid (0x1.99999ap-4, 0, 0)%float))).
Proof. reflexivity. Qed.

(** Called on an object that an earlier invocation has used,
    [ProcessBlock] keeps the earlier tip where a reset object finds a new
    one. *)
Example ProcessBlock_on_used_object :
  (r ← ProcessBlock used (Some (UnstructuredGrid origin_second));
   Some (_global_current_tip (object_of r.1))) = Some (1, 0, 0)%float ∧
  (r ← ProcessBlock (reset fresh) (Some (UnstructuredGrid origin_second));
   Some (_global_current_tip (object_of r.1))) = Some (0, 0, 0)%float.
Proof. split; reflexivity. Qed.

(** ** The claims on the sample data *)



Lemma no_qualifying_point_returns_reference_witness :
  ∃ o,
    RequestData inverted (Some 2%positive) 9%positive objects = Some o ∧
    returned o = Return 1 ∧
    filter o = reset inverted ∧
    printed o = grid_diagnostics inverted broken_bar ∧
    heap o =
      <[9%positive :=
          UnstructuredGrid
            (one_vertex_grid (single_precision (_initial_tip inverted)))]>
        objects ∧
    ((∀ k, to_float32 (_initial_tip inverted).[k] =
           (_initial_tip inverted).[k]) →
     heap o !! 9%positive =
       Some (UnstructuredGrid (one_vertex_grid (_initial_tip inverted)))).
Proof.
  apply (no_qualifying_point_returns_reference inverted 2%positive 9%positive
           objects broken_bar).
  - reflexivity.
  - right. left. exists Ax0. fcompare.
Defined.

(** C2, as stated, fails: on a grid without points the output holds the
    reference point 0.1 as the nearest single-precision value. *)
Lemma reference_is_written_in_single_precision :
  ¬ returns_exactly_the_reference.
Proof.
  intros H.
  edestruct (H tenth 8%positive 9%positive objects empty_grid)
    as (u & Hu & Hpts); [reflexivity | | reflexivity |].
  - intros j q [Hq _]. destruct j; vm_compute in Hq; discriminate Hq.
  - injection Hu as Hu. vm_compute in Hu. subst u.
    vm_compute in Hpts. discriminate Hpts.
Qed.

Lemma qualifying_predicate_witness :
  (loop_condition fresh [0.9]%float 0 (0, 0, 0)%float = Some true ↔
   Qualifies fresh (0, 0, 0)%float 0.9%float) ∧
  ((0.9 =? _d_c fresh)%float = true →
   loop_condition fresh [0.9]%float 0 (0, 0, 0)%float = Some false) ∧
  (∀ k0 : Axis,
     (((0, 0, 0)%float).[k0] =? (_region_min fresh).[k0])%float = true ∨
     (((0, 0, 0)%float).[k0] =? (_region_max fresh).[k0])%float = true →
     fle (_region_min fresh).[k0] (_region_max fresh).[k0] →
     (∀ k, k ≠ k0 → fle (_region_min fresh).[k] ((0, 0, 0)%float).[k] ∧
                    fle ((0, 0, 0)%float).[k] (_region_max fresh).[k]) →
     in_region fresh (0, 0, 0)%float = true).
Proof.
  apply (qualifying_predicate fresh [0.9]%float 0 (0, 0, 0)%float 0.9%float).
  reflexivity.
Defined.

(** A value equal to the threshold, and a point on the lower bound of the
    region on the x axis. *)
Example threshold_and_bound :
  loop_condition fresh [0.5]%float 0 (0, 0, 0)%float = Some false ∧
  in_region narrow (-1, 0, 0)%float = true ∧
  loop_condition narrow [0.9]%float 0 (-1, 0, 0)%float = Some true.
Proof. repeat split; reflexivity. Qed.





Lemma field_not_found_is_recovered_witness :
  ∃ o,
    RequestData fresh (Some 5%positive) 9%positive objects = Some o ∧
    returned o = Return 1 ∧
    filter o = reset fresh ∧
    printed o =
      [MsgRequestData (_d_c fresh) (_array_name fresh);
       MsgProcessingBlock "vtkUnstructuredGrid";
       MsgNumberOfArrays (GetNumberOfArrays (PointData undamaged));
       MsgArrayNotFound (_array_name fresh) "vtkUnstructuredGrid"] ∧
    heap o =
      <[9%positive :=
          UnstructuredGrid
            (one_vertex_grid (single_precision (_initial_tip fresh)))]>
        objects ∧
    ((∀ k, to_float32 (_initial_tip fresh).[k] = (_initial_tip fresh).[k]) →
     heap o !! 9%positive =
       Some (UnstructuredGrid (one_vertex_grid (_initial_tip fresh)))).
Proof.
  apply (field_not_found_is_recovered fresh 5%positive 9%positive objects
           undamaged); reflexivity.
Defined.

(** C6, as stated, fails: with the field absent the output holds the
    reference point 0.1 as the nearest single-precision value, not
    unchanged. *)
Lemma absent_field_writes_single_precision :
  ¬ absent_field_returns_the_reference_unchanged.
Proof.
  intros H.
  edestruct (H tenth 5%positive 9%positive objects undamaged)
    as (u & Hu & Hpts); [reflexivity..|].
  injection Hu as Hu. vm_compute in Hu. subst u.
  vm_compute in Hpts. discriminate Hpts.
Qed.

Lemma unsupported_input_is_reported_witness :
  RequestData fresh (Some 6%positive) 9%positive objects =
  Some {| returned := Return 0;
          filter := reset fresh;
          heap := objects;
          printed := [MsgRequestData (_d_c fresh) (_array_name fresh);
                      MsgUnsupportedInput] |}.
Proof.
  apply (unsupported_input_is_reported fresh (Some 6%positive) 9%positive
           objects).
  intros g. vm_compute. discriminate.
Defined.

(** C8, as stated, fails: an invocation leaves its running maximum in the
    object, and [ProcessBlock] on that object starts from it. *)
Lemma accumulator_is_a_field_of_the_object :
  ¬ accumulator_left_untouched ∧ ¬ ProcessBlock_ignores_accumulator.
Proof.
  split.
  - intros H.
    pose proof (H fresh (Some 1%positive) 9%positive objects _ eq_refl) as E.
    vm_compute in E. discriminate E.
  - intros H.
    pose proof (H used (reset fresh)
                  (Some (UnstructuredGrid origin_second)) _ _
                  eq_refl eq_refl eq_refl) as E.
    vm_compute in E. discriminate E.
Qed.

Lemma invocations_ignore_earlier_accumulator_witness :
  RequestData used (Some 4%positive) 9%positive objects =
  RequestData fresh (Some 4%positive) 9%positive objects.
Proof.
  apply (invocations_ignore_earlier_accumulator used fresh (Some 4%positive)
           9%positive objects).
  reflexivity.
Defined.

Lemma output_is_one_vertex_witness :
  ∃ o,
    RequestData fresh (Some 2%positive) 9%positive objects = Some o ∧
    ((returned o = Return 1 ∧
      ∃ u, heap o !! 9%positive = Some (UnstructuredGrid u) ∧
           Points u = [single_precision (_global_current_tip (filter o))] ∧
           Cells u = [(VTK_VERTEX, [0])])
     ∨
     (returned o = Propagate OverflowError ∧ heap o = objects ∧
      ∃ i q, candidate fresh broken_bar i q ∧
             squared_distance q (_initial_tip fresh) = None)).
Proof.
  apply (output_is_one_vertex fresh 2%positive 9%positive objects broken_bar).
  - reflexivity.
  - sample_readable.
Defined.

(** C10, as stated, fails: the located tip (0.1, 0, 0) is written as the
    nearest single-precision point, which is another point. *)
Lemma output_point_is_single_precision :
  ¬ grid_input_gives_the_tip_as_one_vertex.
Proof.
  intros H.
  destruct (H fresh 14%positive 9%positive objects fine_point eq_refl)
    as (o & u & Hrun & Hu & Hpts & _); [sample_readable|].
  injection Hrun as Hrun. vm_compute in Hrun. subst o.
  injection Hu as Hu. vm_compute in Hu. subst u.
  vm_compute in Hpts. discriminate Hpts.
Qed.

(** ** The rest of the class on the sample data *)


(** The object [used] holds the tip (1, 0, 0); the block moves it to the
    farther point (2, 0, 0). *)
Example ProcessBlock_moves_the_tip :
  (r ← ProcessBlock used (Some (UnstructuredGrid broken_bar));
   Some (accumulator (object_of r.1))) = Some ((2, 0, 0), 4)%float.
Proof. reflexivity. Qed.

Lemma ProcessBlock_block_by_block_witness :
  ∃ flow1 log1 flow log,
    ProcessBlock fresh (Some (UnstructuredGrid bar)) = Some (flow1, log1) ∧
    ProcessBlock fresh (Some (UnstructuredGrid bar_then_ring)) =
      Some (flow, log) ∧
    match flow1 with
    | Continue self1 =>
        ∃ log2,
          ProcessBlock self1 (Some (UnstructuredGrid ring)) =
            Some (flow, log2)
    | Abort e self1 => flow = Abort e self1
    end.
Proof.
  apply (ProcessBlock_block_by_block fresh bar_then_ring bar ring
           [0.9; 0.9; 0.1]%float [0.9; 0.9; 0.9]%float);
    first [reflexivity | vm_compute; lia].
Defined.

Example block_by_block_tip :
  (r ← ProcessBlock fresh (Some (UnstructuredGrid bar_then_ring));
   Some (accumulator (object_of r.1))) = Some ((1, 0, 0), 1)%float ∧
  (r1 ← ProcessBlock fresh (Some (UnstructuredGrid bar));
   r ← ProcessBlock (object_of r1.1) (Some (UnstructuredGrid ring));
   Some (accumulator (object_of r.1))) = Some ((1, 0, 0), 1)%float.
Proof. split; reflexivity. Qed.

Lemma RequestData_again_witness :
  ∃ o, RequestData fresh (Some 1%positive) 9%positive objects = Some o ∧
       RequestData (filter o) (Some 1%positive) 9%positive (heap o) = Some o.
Proof.
  eexists. split; [reflexivity|].
  apply (RequestData_again fresh (Some 1%positive) 9%positive objects).
  - intros inp H. injection H as <-. discriminate.
  - reflexivity.
Defined.




Lemma GetArrayList_lists_the_arrays_witness :
  ∃ names,
    GetArrayList (Some 7%positive) objects = Some (Value names) ∧
    NoDup names ∧
    (∀ n, n ∈ names ↔ ∃ i, GetArrayName surface_data i = Some n) ∧
    (∀ name, is_Some (GetArray surface_data name) → Some name ∈ names).
Proof.
  apply (GetArrayList_lists_the_arrays 7%positive objects
           (OtherDataSet "vtkPolyData" surface_data) surface_data);
    reflexivity.
Defined.

(** The array of strings is listed, and [GetArray] does not find it; an
    object without point data makes [GetArrayList] raise; without an input
    the list is empty. *)
Example array_names_of_the_samples :
  (names ← GetArrayList (Some 5%positive) objects;
   Some (match names with
         | Value l => Value (bool_decide (Some "label" ∈ l), length l)
         | Raises e => Raises e
         end)) = Some (Value (true, 2)) ∧
  GetArray (PointData undamaged) "label" = None ∧
  GetArrayList (Some 6%positive) objects = Some (Raises AttributeError) ∧
  GetArrayList None objects = Some (Value []).
Proof. repeat split; vm_compute; reflexivity. Qed.
